(** * slack-thread-summarization: [summarize.py]

    A shallow embedding of [src/summarize.py] and the properties of its three
    functions: [anonymize_users], [summarize_with_bedrock], [handle_reaction].

    Conventions of the embedding.
    - A Python [str] is a Rocq [string], each character a code point below
      256. The character classes of [str.strip] and of the regular
      expression's [\w] are Python's on these code points; a text with a
      higher code point is outside the model.
    - A Python [dict] whose values are strings is a [gmap string string];
      [d.get(k, v)] is [default v (d !! k)] and [d[k]] raises [KeyError]
      where the key is absent.
    - An exception is a value of [exn]; a computation that can raise returns
      a [result]. The collaborators of the script (Slack, Bedrock, the file
      system) are the fields of a [world]; what the script does to them is
      recorded in a trace of [effect]s.
    - Lines 60-67 of the source lack the comma between the two dict displays
      of the prompt, so Python rejects the module as it stands (see
      [list_display] and [messages_as_written]). The three functions are
      modelled as their text reads with that comma in place. *)

From Stdlib Require Import Ascii String.
From stdpp Require Import gmap strings list fin_maps pretty.

#[local] Open Scope stdpp_scope.
Set Warnings "-clear-no-such-hyp".  (* set_solver clears what it has used *)

(** ** Strings *)

(** The line feed, Python's ["\n"]. *)
Definition nl : string := String "010" "".

(** [sep.join(parts)] *)
Definition join (sep : string) (parts : list string) : string :=
  String.concat sep parts.

(** [f"{n}"] for a non-negative [int]: its decimal digits. *)
Definition fmt_int (n : nat) : string := pretty n.

(** The code point of [c] lies in [lo..hi]. *)
Definition between (lo hi : nat) (c : ascii) : bool :=
  (lo <=? nat_of_ascii c) && (nat_of_ascii c <=? hi).

Module Str.

(** [str.isspace] on one character: TAB, LF, VT, FF, CR; the separators FS,
    GS, RS, US and the space; NEL and the no-break space. *)
Definition is_space (c : ascii) : bool :=
  between 9 13 c || between 28 32 c || between 133 133 c || between 160 160 c.

Fixpoint all (p : ascii → bool) (s : string) : bool :=
  match s with
  | "" => true
  | String c s' => p c && all p s'
  end.

(** First and last character, where the string has one. *)
Definition head (s : string) : option ascii :=
  match s with "" => None | String c _ => Some c end.

Fixpoint last (s : string) : option ascii :=
  match s with
  | "" => None
  | String c "" => Some c
  | String _ s' => last s'
  end.

(** [s.lstrip()] *)
Fixpoint lstrip (s : string) : string :=
  match s with
  | "" => ""
  | String c s' => if is_space c then lstrip s' else s
  end.

(** [s.rstrip()] *)
Fixpoint rstrip (s : string) : string :=
  match s with
  | "" => ""
  | String c s' =>
      match rstrip s' with
      | "" => if is_space c then "" else String c ""
      | r => String c r
      end
  end.

(** [s.strip()]: whitespace removed at both ends, nothing in between. *)
Definition strip (s : string) : string := rstrip (lstrip s).

End Str.

(** ** Regular expressions

    The fragment of Python's [re] that the script uses: a sequence of items,
    each one character or a greedy repetition [x+] of one, where a character
    is a literal or the class [\w]. Matching backtracks as [re] does: [x+]
    first takes as many characters as it can and gives them back one at a
    time while the rest of the pattern fails. *)
Module Re.

Inductive atom :=
| Chr (c : ascii)             (* a literal character *)
| Class (p : ascii → bool).   (* a character class *)

Inductive item :=
| One (a : atom)    (* x  *)
| Plus (a : atom).  (* x+ *)

Definition regex := list item.

(** [\w] on a [str]: the underscore and what is alphanumeric, which below
    256 is the digits and letters of ASCII, the ordinal indicators, the
    superscript digits, the micro sign, the three fractions, and the
    letters of Latin-1 (its multiplication and division signs left out). *)
Definition is_word (c : ascii) : bool :=
  between 48 57 c || between 65 90 c || between 95 95 c || between 97 122 c
  || between 170 170 c || between 178 179 c || between 181 181 c
  || between 185 186 c || between 188 190 c
  || between 192 214 c || between 216 246 c || between 248 255 c.

Definition Word : atom := Class is_word.

Definition accepts (a : atom) (c : ascii) : bool :=
  match a with
  | Chr c' => bool_decide (c = c')
  | Class p => p c
  end.

(** [match_here r s]: the length of the match of [r] that starts at the
    first character of [s], as the backtracking matcher finds it. *)
Fixpoint match_here (r : regex) (s : string) : option nat :=
  match r with
  | [] => Some 0
  | One a :: r' =>
      match s with
      | String c s' => if accepts a c then S <$> match_here r' s' else None
      | "" => None
      end
  | Plus a :: r' =>
      (fix plus (s : string) : option nat :=
         match s with
         | String c s' =>
             if accepts a c then
               match plus s' with
               | Some n => Some (S n)               (* one more [a] *)
               | None => S <$> match_here r' s'     (* give it back *)
               end
             else None
         | "" => None
         end) s
  end.

(** [re.sub(r, repl, s)], scanning left to right. [skip] counts the
    characters of the current match that are still to be dropped. A match
    of length 0 replaces nothing here: the pattern of the script has none
    (lemma [mention_length] below). *)
Fixpoint sub_from (r : regex) (repl : string) (skip : nat) (s : string) : string :=
  match s with
  | "" => ""
  | String c s' =>
      match skip with
      | S k => sub_from r repl k s'
      | 0 =>
          match match_here r s with
          | Some (S n) => repl +:+ sub_from r repl n s'
          | _ => String c (sub_from r repl 0 s')
          end
      end
  end.

Definition sub (r : regex) (repl : string) (s : string) : string :=
  sub_from r repl 0 s.

End Re.

(** The pattern of line 50, [r"<@U\w+>"]. *)
Definition MENTION : Re.regex :=
  [Re.One (Re.Chr "<"); Re.One (Re.Chr "@"); Re.One (Re.Chr "U");
   Re.Plus Re.Word; Re.One (Re.Chr ">")]%char.

(** ** Exceptions and results *)

Inductive exn :=
| KeyError (key : string)        (* [d[key]] on a dict without [key] *)
| AttributeError (attr : string) (* [v.attr] on a value without it *)
| JSONDecodeError                (* [json.loads] on text that is not JSON *)
| Raised (cls : string)          (* any other [Exception], by class name:
                                    botocore's ClientError and
                                    EndpointConnectionError, slack_sdk's
                                    SlackApiError, OSError, ... *)
| KeyboardInterrupt.             (* a [BaseException] that is no [Exception] *)

(** [isinstance(e, Exception)], what [except Exception] tests. *)
Definition is_Exception (e : exn) : bool :=
  match e with
  | KeyboardInterrupt => false
  | _ => true
  end.

Inductive result (A : Type) :=
| Ok (a : A)
| Raise (e : exn).
Arguments Ok {A} a.
Arguments Raise {A} e.

#[global] Instance result_ret : MRet result := @Ok.
#[global] Instance result_bind : MBind result := λ A B f r,
  match r with
  | Ok a => f a
  | Raise e => Raise e
  end.

(** [d[key]] *)
Definition getitem {V} (d : gmap string V) (key : string) : result V :=
  match d !! key with
  | Some v => Ok v
  | None => Raise (KeyError key)
  end.

(** ** The anonymizer (lines 35-55) *)

(** A thread message as Slack returns it: a dict of strings, where a key may
    be absent. *)
Abbreviation message := (gmap string string).

(** The variables of the loop. *)
Record anon_state := AnonState {
  user_mapping : gmap string string;
  user_counter : nat;
  cleaned_messages : list string
}.

(** Lines 37-40. *)
Definition anon_init : anon_state :=
  {| user_mapping := ∅; user_counter := 1; cleaned_messages := [] |}.

(** Line 42: [msg.get("user", "Unknown")]. *)
Definition author (msg : message) : string := default "Unknown" (msg !! "user").

(** Lines 43 and 50: what becomes of the text of a message. *)
Definition clean_text (msg : message) : string :=
  let text := Str.strip (default "" (msg !! "text")) in
  Re.sub MENTION "" text.

(** [f"User {user_counter}"] *)
Definition user_label (n : nat) : string := "User " +:+ fmt_int n.

(** The body of the loop, lines 42-53. *)
Definition anonymize_step (st : anon_state) (msg : message) : result anon_state :=
  let user_id := author msg in
  let st1 :=
    match user_mapping st !! user_id with
    | None =>
        {| user_mapping := <[user_id := user_label (user_counter st)]> (user_mapping st);
           user_counter := user_counter st + 1;
           cleaned_messages := cleaned_messages st |}
    | Some _ => st
    end in
  anonymized_user ← getitem (user_mapping st1) user_id;
  let text := clean_text msg in
  mret {| user_mapping := user_mapping st1;
          user_counter := user_counter st1;
          cleaned_messages :=
            cleaned_messages st1 ++ [anonymized_user +:+ ": " +:+ text] |}.

(** The loop of line 41, from any state. *)
Fixpoint anonymize_loop (st : anon_state) (messages : list message) : result anon_state :=
  match messages with
  | [] => mret st
  | msg :: rest => st' ← anonymize_step st msg; anonymize_loop st' rest
  end.

Definition anonymize_users (messages : list message) : result string :=
  st ← anonymize_loop anon_init messages;
  mret (join nl (cleaned_messages st)).

(** A message with both keys. *)
Definition mk_message (user text : string) : message :=
  {[ "user" := user; "text" := text ]}.

(** ** The collaborators and the process state *)

(** Lines 13-22, read once when the module is loaded. *)
Record config := Config {
  MODEL_ID : string;
  SPECIFIC_EMOJI : string
}.

(** The values the environment gives when it sets neither variable. *)
Definition default_config : config :=
  {| MODEL_ID := "anthropic.claude-v2"; SPECIFIC_EMOJI := "bulb" |}.

(** One entry of the [messages] list of the request. *)
Record chat_message := ChatMessage {
  role : string;
  content : string
}.

(** The dict that line 72 hands to [json.dumps]. *)
Record request_body := RequestBody {
  messages : list chat_message;
  max_tokens : nat;
  anthropic_version : string
}.

(** A value the script only formats: a [str], or anything else, kept as the
    text [str()] gives for it. *)
Inductive pyval :=
| PStr (s : string)
| PRepr (shown : string).

(** [f"{v}"] *)
Definition py_str (v : pyval) : string :=
  match v with
  | PStr s => s
  | PRepr shown => shown
  end.

(** What [json.loads] returns. *)
Inductive json :=
| JsonObject (fields : gmap string pyval)   (* a dict *)
| JsonOther (shown : string).               (* a list, str, number, bool, None *)

(** [response["body"].read()], as [json.loads] will take it: [None] where
    the bytes are not JSON. *)
Inductive body :=
| Unreadable (e : exn)
| Bytes (parsed : option json).

Inductive bedrock_reply :=
| InvokeRaises (e : exn)
| Response (b : body).

(** [None]: the response has no ["messages"] key. *)
Inductive slack_reply :=
| FetchRaises (e : exn)
| FetchReturns (thread : option (list message)).

(** [open(path, "w")] and the write that follows. *)
Inductive disk_reply :=
| OpenRaises (e : exn)
| WriteRaises (e : exn) (kept : string)   (* [kept]: what reached the file *)
| WriteDone.

Record world := World {
  slack : string → string → nat → slack_reply;    (* channel, ts, limit *)
  bedrock : string → request_body → bedrock_reply;  (* modelId, body *)
  disk : string → string → disk_reply               (* path, data *)
}.

Inductive level := INFO | ERROR.

(** What the process does to the outside, in order. A log record carries its
    level and the format string of the source. *)
Inductive effect :=
| Logged (lvl : level) (fmt : string)
| ConversationsReplies (channel ts : string) (limit : nat)
| InvokeModel (modelId : string) (request : request_body)
| OpenForWrite (path : string)
| FileWrite (path data : string).

Record pstate := PState {
  trace : list effect;
  files : gmap string string
}.

(** A computation of the process: it may raise, and it leaves a state either
    way. *)
Definition M (A : Type) : Type := pstate → result A * pstate.

#[global] Instance M_ret : MRet M := λ A a s, (Ok a, s).
#[global] Instance M_bind : MBind M := λ A B f m s,
  match m s with
  | (Ok a, s') => f a s'
  | (Raise e, s') => (Raise e, s')
  end.

Definition lift {A} (r : result A) : M A := λ s, (r, s).

Definition emit (e : effect) : M unit := λ s,
  (Ok tt, {| trace := trace s ++ [e]; files := files s |}).

(** [try: body  except Exception as e: handler(e)] *)
Definition try_except {A} (body : M A) (handler : exn → M A) : M A := λ s,
  match body s with
  | (Raise e, s') => if is_Exception e then handler e s' else (Raise e, s')
  | done => done
  end.

Definition logging_info (fmt : string) : M unit := emit (Logged INFO fmt).
Definition logging_error (fmt : string) : M unit := emit (Logged ERROR fmt).

(** [app.client.conversations_replies(channel=.., ts=.., limit=..)] *)
Definition conversations_replies (w : world) (channel ts : string) (limit : nat)
  : M (option (list message)) :=
  _ ← emit (ConversationsReplies channel ts limit);
  match slack w channel ts limit with
  | FetchRaises e => lift (Raise e)
  | FetchReturns thread => mret thread
  end.

(** [bedrock.invoke_model(modelId=.., body=json.dumps(..))] *)
Definition invoke_model (w : world) (modelId : string) (request : request_body) : M body :=
  _ ← emit (InvokeModel modelId request);
  match bedrock w modelId request with
  | InvokeRaises e => lift (Raise e)
  | Response b => mret b
  end.

(** [json.loads(response["body"].read())] *)
Definition json_loads_read (b : body) : result json :=
  match b with
  | Unreadable e => Raise e
  | Bytes None => Raise JSONDecodeError
  | Bytes (Some v) => Ok v
  end.

(** [result.get(key, dflt)]: a method of dicts only. *)
Definition get_method (v : json) (key : string) (dflt : pyval) : result pyval :=
  match v with
  | JsonObject fields => Ok (default dflt (fields !! key))
  | JsonOther _ => Raise (AttributeError "get")
  end.

(** [with open(path, "w") as f: f.write(data)] *)
Definition write_file (w : world) (path data : string) : M unit := λ s,
  let s1 := {| trace := trace s ++ [OpenForWrite path]; files := files s |} in
  match disk w path data with
  | OpenRaises e => (Raise e, s1)
  | WriteRaises e kept =>
      (Raise e, {| trace := trace s1; files := <[path := kept]> (files s1) |})
  | WriteDone =>
      (Ok tt, {| trace := trace s1 ++ [FileWrite path data];
                 files := <[path := data]> (files s1) |})
  end.

(** ** The summarizer (lines 58-83) *)

(** The first string of the prompt, lines 61-65. *)
Definition INSTRUCTION : string :=
  "You are a technical assistant bot. Summarize the following Slack conversation in a structured format, focusing on: " +:+ nl
  +:+ "- What the issue was " +:+ nl
  +:+ "- How the issue was identified " +:+ nl
  +:+ "- Steps taken to resolve it " +:+ nl
  +:+ "- Final resolution " +:+ nl +:+ nl.

(** The two dict displays of lines 61-66. *)
Definition instruction_message : chat_message :=
  {| role := "user"; content := INSTRUCTION |}.

Definition conversation_message (text : string) : chat_message :=
  {| role := "user"; content := "Conversation:" +:+ nl +:+ text |}.

(** *** The list display of lines 60-67, token by token

    Python's grammar for a list display: [[]], or items separated by commas,
    with one more comma allowed before the closing bracket. *)
Inductive token :=
| LSQB                      (* [ *)
| RSQB                      (* ] *)
| COMMA
| DICT (d : chat_message).  (* a dict display, already read *)

(** After an item: [None] is a SyntaxError. *)
Fixpoint display_rest (ts : list token) : option (list chat_message) :=
  match ts with
  | [RSQB] => Some []
  | [COMMA; RSQB] => Some []
  | COMMA :: DICT d :: ts' => (d ::.) <$> display_rest ts'
  | _ => None
  end.

Definition list_display (ts : list token) : option (list chat_message) :=
  match ts with
  | [LSQB; RSQB] => Some []
  | LSQB :: DICT d :: ts' => (d ::.) <$> display_rest ts'
  | _ => None
  end.

(** Lines 60-67 as they stand: no comma between the two dict displays, one
    after the second. *)
Definition messages_as_written (text : string) : list token :=
  [LSQB; DICT instruction_message; DICT (conversation_message text); COMMA; RSQB].

(** The same lines with the comma that line 65 lacks. *)
Definition messages_with_comma (text : string) : list token :=
  [LSQB; DICT instruction_message; COMMA; DICT (conversation_message text); COMMA; RSQB].

(** The list the two dict displays were written to build. The functions
    below are modelled on it. *)
Definition prompt_messages (text : string) : list chat_message :=
  [instruction_message; conversation_message text].

Definition summarize_request (text : string) : request_body :=
  {| messages := prompt_messages text;
     max_tokens := 500;
     anthropic_version := "bedrock-2023-05-31" |}.

Definition summarize_with_bedrock (cfg : config) (w : world) (text : string) : M pyval :=
  try_except
    (response ← invoke_model w (MODEL_ID cfg) (summarize_request text);
     result ← lift (json_loads_read response);
     lift (get_method result "content" (PStr "No summary available.")))
    (λ e,
       _ ← logging_error "Error calling AWS Bedrock: {e}";
       mret (PStr "Error generating summary.")).

(** ** The event handler (lines 86-119) *)

(** A [reaction_added] event: [None] where the key is absent. *)
Record event := Event {
  reaction : option string;
  item : option (gmap string string)
}.

Definition OUTPUT_PATH : string := "conversation_summary.txt".

(** Line 117: the text written to the file. *)
Definition output_record (anonymized_text summary : string) : string :=
  "Original Conversation:" +:+ nl +:+ anonymized_text +:+ nl +:+ nl
  +:+ "Summary:" +:+ nl +:+ summary.

Definition handle_reaction (cfg : config) (w : world) (ev : event) : M unit :=
  _ ← logging_info "Received Event: {event}";
  if bool_decide (reaction ev ≠ Some (SPECIFIC_EMOJI cfg)) then
    logging_info "Ignoring reaction: {reaction}"
  else
    it ← lift (match item ev with Some it => Ok it | None => Raise (KeyError "item") end);
    channel_id ← lift (getitem it "channel");
    message_ts ← lift (getitem it "ts");
    _ ← logging_info "Triggered on emoji {reaction} in channel {channel_id}";
    response ← conversations_replies w channel_id message_ts 50;
    match default [] response with
    | [] => logging_info "No messages found in the thread to summarize."
    | thread =>
        anonymized_text ← lift (anonymize_users thread);
        summary ← summarize_with_bedrock cfg w anonymized_text;
        _ ← write_file w OUTPUT_PATH (output_record anonymized_text (py_str summary));
        logging_info "Anonymized conversation and plain-text summary have been saved to a file."
    end.

(** ** Specification vocabulary for the anonymizer *)

(** The distinct author identifiers of a thread. *)
Definition distinct_authors (thread : list message) : gset string :=
  list_to_set (author <$> thread).

(** The labels are numbered by first appearance: a message whose author no
    earlier message has carries the label whose number is one more than the
    number of distinct authors before it. *)
Definition numbered_by_first_appearance
    (thread : list message) (mapping : gmap string string) : Prop :=
  ∀ earlier msg later,
    thread = earlier ++ msg :: later →
    author msg ∉ distinct_authors earlier →
    mapping !! author msg = Some (user_label (S (size (distinct_authors earlier)))).

(** The line of the transcript for [msg] under [mapping]. *)
Definition line_of (mapping : gmap string string) (msg : message) (line : string) : Prop :=
  ∃ label, mapping !! author msg = Some label
           ∧ line = label +:+ ": " +:+ clean_text msg.

(** What holds of the loop's variables once the messages [seen] are done. *)
Record anon_inv (seen : list message) (st : anon_state) : Prop := AnonInv {
  inv_dom : dom (user_mapping st) = distinct_authors seen;
  inv_counter : user_counter st = S (size (distinct_authors seen));
  inv_labels : ∀ a l, user_mapping st !! a = Some l →
                 ∃ k, 1 ≤ k < user_counter st ∧ l = user_label k;
  inv_onto : ∀ k, 1 ≤ k < user_counter st →
               ∃ a, user_mapping st !! a = Some (user_label k);
  inv_inj : ∀ a b l, user_mapping st !! a = Some l →
              user_mapping st !! b = Some l → a = b;
  inv_numbered : numbered_by_first_appearance seen (user_mapping st);
  inv_lines : Forall2 (line_of (user_mapping st)) seen (cleaned_messages st)
}.

(** ** Specification vocabulary for the cleaning of a text *)

(** A mention as line 50 removes it: [<@U], one or more word characters,
    [>]. *)
Definition is_mention (m : string) : Prop :=
  ∃ w, m = "<@U" +:+ w +:+ ">" ∧ w ≠ "" ∧ Str.all Re.is_word w = true.

(** [removes P s out]: [out] is [s] without its substrings that satisfy [P],
    taken from left to right, each as soon as one starts; every other
    character is kept, in place. *)
Inductive removes (P : string → Prop) : string → string → Prop :=
| removes_end : removes P "" ""
| removes_match m rest out :
    P m → removes P rest out → removes P (m +:+ rest) out
| removes_keep c s out :
    (∀ m rest, P m → String c s ≠ m +:+ rest) →
    removes P s out → removes P (String c s) (String c out).

(** No substring of [s] satisfies [P]. *)
Definition free_of (P : string → Prop) (s : string) : Prop :=
  ∀ before m after, P m → s ≠ before +:+ m +:+ after.

(** [core] is [s] trimmed: whitespace, and only whitespace, taken off both
    ends. *)
Definition trimmed (s core : string) : Prop :=
  ∃ l r, s = l +:+ core +:+ r
         ∧ Str.all Str.is_space l = true ∧ Str.all Str.is_space r = true
         ∧ (∀ c, Str.head core = Some c → Str.is_space c = false)
         ∧ (∀ c, Str.last core = Some c → Str.is_space c = false).

(** The pattern in the words of the specification: [<@], an identifier of
    uppercase letters and digits, [>]. *)
Definition is_upper_alnum (c : ascii) : bool :=
  between 48 57 c || between 65 90 c.

Definition MENTION_AS_SPECIFIED : Re.regex :=
  [Re.One (Re.Chr "<"); Re.One (Re.Chr "@");
   Re.Plus (Re.Class is_upper_alnum); Re.One (Re.Chr ">")]%char.

(** The cleaning of a text in the words of the specification: trimmed at
    both ends, and the mentions of that pattern removed. *)
Definition clean_text_as_specified (msg : message) : string :=
  Re.sub MENTION_AS_SPECIFIED "" (Str.strip (default "" (msg !! "text"))).

(** ** Specification vocabulary for the summarizer and the handler *)

(** [s] after the effects [es], its files as they were. *)
Definition with_effects (s : pstate) (es : list effect) : pstate :=
  {| trace := trace s ++ es; files := files s |}.

(** The ways the inference call fails: the transport or the endpoint raises
    an [Exception], or the response is malformed (unreadable, no JSON, or
    JSON that is no object). *)
Definition inference_fails (r : bedrock_reply) : Prop :=
  match r with
  | InvokeRaises e | Response (Unreadable e) => is_Exception e = true
  | Response (Bytes None) | Response (Bytes (Some (JsonOther _))) => True
  | Response (Bytes (Some (JsonObject _))) => False
  end.

(** The one request of the summarizer. *)
Definition the_request (cfg : config) (text : string) : effect :=
  InvokeModel (MODEL_ID cfg) (summarize_request text).

(** The two fixed texts of lines 83 and 80. *)
Definition ERROR_SUMMARY : string := "Error generating summary.".
Definition NO_SUMMARY : string := "No summary available.".

(** The log records of the handler, lines 89, 93, 99, 106 and 119. *)
Definition RECEIVED : effect := Logged INFO "Received Event: {event}".
Definition IGNORING : effect := Logged INFO "Ignoring reaction: {reaction}".
Definition TRIGGERED : effect :=
  Logged INFO "Triggered on emoji {reaction} in channel {channel_id}".
Definition NO_MESSAGES : effect :=
  Logged INFO "No messages found in the thread to summarize.".
Definition SAVED : effect :=
  Logged INFO "Anonymized conversation and plain-text summary have been saved to a file.".

(** The event has the target emoji and names a thread. *)
Definition triggers (cfg : config) (ev : event) (channel ts : string) : Prop :=
  reaction ev = Some (SPECIFIC_EMOJI cfg)
  ∧ ∃ it, item ev = Some it ∧ it !! "channel" = Some channel ∧ it !! "ts" = Some ts.

(** The event has the target emoji and lacks the key that [e] names. *)
Definition missing_key (ev : event) (e : exn) : Prop :=
  (item ev = None ∧ e = KeyError "item")
  ∨ ∃ it, item ev = Some it
      ∧ ((it !! "channel" = None ∧ e = KeyError "channel")
         ∨ (is_Some (it !! "channel") ∧ it !! "ts" = None ∧ e = KeyError "ts")).

(** The run ends without an exception. *)
Definition returns_normally {A} (run : result A * pstate) : Prop :=
  ∃ a, run.1 = Ok a.

(** ** Sample inputs *)

(** The thread of the scenario. *)
Definition scenario : list message :=
  [mk_message "U1" "<@U2> help, build broke";
   mk_message "U2" "fixed by reverting commit"].

(** Its transcript, as the anonymizer gives it. *)
Definition scenario_transcript : string :=
  "User 1:  help, build broke" +:+ nl +:+ "User 2: fixed by reverting commit".

(** Sample collaborators, for the concrete instances below. *)
Definition a_world (f : slack_reply) (b : bedrock_reply) (d : disk_reply) : world :=
  {| slack := λ _ _ _, f; bedrock := λ _ _, b; disk := λ _ _, d |}.

(** A reaction with the default target emoji, and one with another. *)
Definition bulb_event : event :=
  {| reaction := Some "bulb";
     item := Some {[ "channel" := "C024BE91L"; "ts" := "1355517523.000005" ]} |}.

Definition thumbsup_event : event :=
  {| reaction := Some "thumbsup";
     item := Some {[ "channel" := "C024BE91L"; "ts" := "1355517523.000005" ]} |}.

(** A process that has logged nothing yet, with an older summary on disk. *)
Definition old_state : pstate :=
  {| trace := []; files := {[ OUTPUT_PATH := "Original Conversation: (older run)" ]} |}.

(** A run of the whole pipeline: the thread of the scenario, a summary from
    the endpoint, a disk that takes the write. *)
Definition good_world : world :=
  a_world (FetchReturns (Some scenario))
          (Response (Bytes (Some (JsonObject {[ "content" := PStr "Build broke; a revert fixed it." ]}))))
          WriteDone.

(** The endpoint cannot be reached. *)
Definition unreachable_world : world :=
  a_world (FetchReturns (Some scenario))
          (InvokeRaises (Raised "EndpointConnectionError"))
          WriteDone.

(** The endpoint answers with an object that has no ["content"]. *)
Definition contentless_world : world :=
  a_world (FetchReturns (Some scenario))
          (Response (Bytes (Some (JsonObject {[ "completion" := PStr "A revert fixed it." ]}))))
          WriteDone.

(** Slack refuses the fetch. *)
Definition slack_down_world : world :=
  a_world (FetchRaises (Raised "SlackApiError"))
          (Response (Bytes (Some (JsonObject {[ "content" := PStr "Build broke; a revert fixed it." ]}))))
          WriteDone.

(** ** Vocabulary for the further properties *)

(** [msg] with its author identifier replaced by [f] of it. *)
Definition rename_author (f : string → string) (msg : message) : message :=
  <["user" := f (author msg)]> msg.

(** Two states of the loop that differ by the renaming [f] only. *)
Definition renamed (f : string → string) (st st' : anon_state) : Prop :=
  (∀ a, user_mapping st' !! f a = user_mapping st !! a)
  ∧ user_counter st' = user_counter st
  ∧ cleaned_messages st' = cleaned_messages st.

(** The thread that the event names came back, with a message in it, and
    [transcript] is what the anonymizer makes of it. *)
Definition thread_fetched (cfg : config) (w : world) (ev : event)
    (channel ts transcript : string) : Prop :=
  triggers cfg ev channel ts
  ∧ ∃ response, slack w channel ts 50 = FetchReturns response
      ∧ default [] response ≠ []
      ∧ anonymize_users (default [] response) = Ok transcript.

Definition is_log (e : effect) : Prop := ∃ lvl fmt, e = Logged lvl fmt.


Definition is_fetch (e : effect) : bool :=
  match e with ConversationsReplies _ _ _ => true | _ => false end.

(** The effects up to and including the inference request. *)
Definition upto_request (cfg : config) (channel ts transcript : string) : list effect :=
  [RECEIVED; TRIGGERED; ConversationsReplies channel ts 50; the_request cfg transcript].

(** The runs of the handler: the effects one run adds, and the files it
    leaves, from the files [fs] it found. One constructor per way through
    lines 89-119. *)
Inductive handler_run (cfg : config) (w : world) (ev : event) (fs : gmap string string)
  : list effect → gmap string string → Prop :=
| run_ignored :
    reaction ev ≠ Some (SPECIFIC_EMOJI cfg) →
    handler_run cfg w ev fs [RECEIVED; IGNORING] fs
| run_key_error e :
    reaction ev = Some (SPECIFIC_EMOJI cfg) → missing_key ev e →
    handler_run cfg w ev fs [RECEIVED] fs
| run_fetch_failed channel ts e :
    triggers cfg ev channel ts → slack w channel ts 50 = FetchRaises e →
    handler_run cfg w ev fs [RECEIVED; TRIGGERED; ConversationsReplies channel ts 50] fs
| run_empty channel ts response :
    triggers cfg ev channel ts → slack w channel ts 50 = FetchReturns response →
    default [] response = [] →
    handler_run cfg w ev fs
      [RECEIVED; TRIGGERED; ConversationsReplies channel ts 50; NO_MESSAGES] fs
| run_interrupted channel ts transcript :
    thread_fetched cfg w ev channel ts transcript →
    handler_run cfg w ev fs (upto_request cfg channel ts transcript) fs
| run_not_opened channel ts transcript logs :
    thread_fetched cfg w ev channel ts transcript → Forall is_log logs →
    handler_run cfg w ev fs
      (upto_request cfg channel ts transcript ++ logs ++ [OpenForWrite OUTPUT_PATH]) fs
| run_not_written channel ts transcript logs kept :
    thread_fetched cfg w ev channel ts transcript → Forall is_log logs →
    handler_run cfg w ev fs
      (upto_request cfg channel ts transcript ++ logs ++ [OpenForWrite OUTPUT_PATH])
      (<[OUTPUT_PATH := kept]> fs)
| run_written channel ts transcript logs summary :
    thread_fetched cfg w ev channel ts transcript → Forall is_log logs →
    handler_run cfg w ev fs
      (upto_request cfg channel ts transcript ++ logs
       ++ [OpenForWrite OUTPUT_PATH;
           FileWrite OUTPUT_PATH (output_record transcript (py_str summary));
           SAVED])
      (<[OUTPUT_PATH := output_record transcript (py_str summary)]> fs).

(** ** Configuration (lines 18-22) *)

(** [os.getenv(name, dflt)] on the environment [environ]. *)
Definition getenv (environ : gmap string string) (name dflt : string) : string :=
  default dflt (environ !! name).

(** Lines 19 and 22. *)
Definition load_config (environ : gmap string string) : config :=
  {| MODEL_ID := getenv environ "AWS_MODEL_ID" "anthropic.claude-v2";
     SPECIFIC_EMOJI := getenv environ "SPECIFIC_EMOJI" "bulb" |}.

(** More sample inputs. *)

(** The user interrupts the process during the inference call. *)
Definition interrupted_world : world :=
  a_world (FetchReturns (Some scenario)) (InvokeRaises KeyboardInterrupt) WriteDone.

(** The output file cannot be opened. *)
Definition readonly_world : world :=
  a_world (FetchReturns (Some scenario))
          (Response (Bytes (Some (JsonObject {[ "content" := PStr "Build broke; a revert fixed it." ]}))))
          (OpenRaises (Raised "PermissionError")).

(** An event with the target emoji and no ["item"]. *)
Definition itemless_event : event := {| reaction := Some "bulb"; item := None |}.

(** ** Tactics *)

(** Unfold the summarizer down to the replies of the collaborators. *)
Ltac run :=
  unfold summarize_with_bedrock, try_except, invoke_model, conversations_replies,
    logging_info, logging_error, emit, lift, write_file, getitem,
    json_loads_read, get_method,
    mbind, mret, M_bind, M_ret, result_bind, result_ret; simpl.

(** Unfold the handler, keeping the summarizer folded. *)
Ltac step :=
  unfold handle_reaction, conversations_replies, logging_info, emit, lift,
    getitem, mbind, mret, M_bind, M_ret, result_bind, result_ret; simpl.

(** Membership in the effects of a run, case by case. *)
Ltac in_run :=
  unfold upto_request, the_request, RECEIVED, IGNORING, TRIGGERED, NO_MESSAGES, SAVED in *;
  repeat match goal with
         | H : _ ∈ _ ++ _ |- _ => apply elem_of_app in H as [H|H]
         | H : _ ∈ _ :: _ |- _ => apply elem_of_cons in H as [H|H]
         | H : _ ∈ [] |- _ => by apply elem_of_nil in H
         | H : ?e ∈ ?logs, Hl : Forall is_log ?logs |- _ =>
             destruct (proj1 (Forall_forall is_log logs) Hl e H) as (? & ? & ?); clear H
         end;
  simplify_eq.

(** * Proofs *)

(** ** The anonymizer: labels *)

Lemma user_label_inj : Inj (=) (=) user_label.
Proof.
  intros m n H. unfold user_label, fmt_int in H.
  by eapply pretty_nat_inj, String.app_inj.
Qed.

Lemma distinct_authors_snoc seen msg :
  distinct_authors (seen ++ [msg]) = distinct_authors seen ∪ {[author msg]}.
Proof.
  unfold distinct_authors. rewrite fmap_app, list_to_set_app_L. simpl.
  set_solver.
Qed.

Lemma anon_inv_init : anon_inv [] anon_init.
Proof.
  split; simpl.
  - unfold distinct_authors. simpl. by rewrite dom_empty_L.
  - reflexivity.
  - intros a l H. by rewrite lookup_empty in H.
  - intros k Hk. lia.
  - intros a b l H. by rewrite lookup_empty in H.
  - intros earlier msg later H. by destruct earlier.
  - constructor.
Qed.

Lemma line_of_insert mapping a l msg line :
  mapping !! a = None →
  line_of mapping msg line → line_of (<[a := l]> mapping) msg line.
Proof.
  intros Hfresh (label & Hl & ->). exists label. split; [|done].
  rewrite lookup_insert_ne; [done|]. intros ->. congruence.
Qed.

(** One turn of the loop keeps the invariant, and never raises. *)
Lemma anonymize_step_inv seen st msg :
  anon_inv seen st →
  ∃ st', anonymize_step st msg = Ok st' ∧ anon_inv (seen ++ [msg]) st'.
Proof.
  intros [Hdom Hcnt Hlab Honto Hinj Hnum Hlines].
  unfold anonymize_step.
  destruct (user_mapping st !! author msg) as [label|] eqn:Hlook; simpl.
  - (* the author has a label already *)
    unfold getitem. rewrite Hlook. simpl. eexists. split; [done|].
    assert (author msg ∈ distinct_authors seen) as Hin.
    { rewrite <- Hdom. apply elem_of_dom. eauto. }
    assert (distinct_authors (seen ++ [msg]) = distinct_authors seen) as Heq.
    { rewrite distinct_authors_snoc. set_solver. }
    split; simpl; rewrite ?Heq; try done.
    + intros earlier m later Hsplit Hnew.
      destruct later as [|x later _] using rev_ind.
      * apply app_inj_tail in Hsplit as [-> ->]. done.
      * rewrite app_comm_cons, app_assoc in Hsplit.
        apply app_inj_tail in Hsplit as [-> _]. by eapply Hnum.
    + apply Forall2_app; [done|]. repeat constructor. by exists label.
  - (* a new author *)
    unfold getitem. rewrite lookup_insert_eq. simpl. eexists. split; [done|].
    assert (author msg ∉ distinct_authors seen) as Hnotin.
    { rewrite <- Hdom. by apply not_elem_of_dom. }
    split; simpl.
    + rewrite dom_insert_L, distinct_authors_snoc, Hdom. set_solver.
    + rewrite distinct_authors_snoc, size_union, size_singleton, Hcnt by set_solver.
      lia.
    + intros a l. rewrite lookup_insert. case_decide as Ha.
      * intros [= <-]. exists (user_counter st). split; [|done].
        rewrite Hcnt. lia.
      * intros H. apply Hlab in H as (k & Hk & ->). exists k. split; [lia|done].
    + intros k Hk. destruct (decide (k = user_counter st)) as [->|Hne].
      * exists (author msg). apply lookup_insert_eq.
      * destruct (Honto k) as (a & Ha); [lia|]. exists a.
        rewrite lookup_insert_ne; [done|]. intros <-. congruence.
    + intros a b l. rewrite !lookup_insert.
      repeat case_decide; subst; try congruence.
      * intros [= <-] Hb. apply Hlab in Hb as (k & Hk & Heq).
        apply user_label_inj in Heq. lia.
      * intros Ha [= <-]. apply Hlab in Ha as (k & Hk & Heq).
        apply user_label_inj in Heq. lia.
      * apply Hinj.
    + intros earlier m later Hsplit Hnew.
      destruct later as [|x later _] using rev_ind.
      * apply app_inj_tail in Hsplit as [-> ->].
        rewrite lookup_insert_eq, Hcnt. done.
      * rewrite app_comm_cons, app_assoc in Hsplit.
        apply app_inj_tail in Hsplit as [-> _].
        rewrite lookup_insert_ne; [by eapply Hnum|].
        intros Heq. apply Hnotin. rewrite Heq.
        unfold distinct_authors. rewrite fmap_app. set_solver.
    + apply Forall2_app.
      * eapply Forall2_impl; [done|]. intros m line. by apply line_of_insert.
      * repeat constructor. eexists. split; [apply lookup_insert_eq|done].
Qed.

Lemma anonymize_loop_inv rest : ∀ seen st,
  anon_inv seen st →
  ∃ st', anonymize_loop st rest = Ok st' ∧ anon_inv (seen ++ rest) st'.
Proof.
  induction rest as [|msg rest IH]; intros seen st Hinv; simpl.
  - exists st. by rewrite app_nil_r.
  - destruct (anonymize_step_inv seen st msg Hinv) as (st1 & -> & Hinv1). simpl.
    destruct (IH _ _ Hinv1) as (st2 & Hrun & Hinv2).
    exists st2. split; [done|]. by rewrite <- app_assoc in Hinv2.
Qed.

(** The loop on a whole thread, in the vocabulary of the invariant. *)
Lemma anonymize_loop_result (thread : list message) :
  ∃ st, anonymize_loop anon_init thread = Ok st
    ∧ anonymize_users thread = Ok (join nl (cleaned_messages st))
    ∧ dom (user_mapping st) = distinct_authors thread
    ∧ (∀ l, (∃ a, user_mapping st !! a = Some l)
            ↔ ∃ k, 1 ≤ k ≤ size (distinct_authors thread) ∧ l = user_label k)
    ∧ (∀ a b l, user_mapping st !! a = Some l → user_mapping st !! b = Some l → a = b)
    ∧ numbered_by_first_appearance thread (user_mapping st)
    ∧ Forall2 (line_of (user_mapping st)) thread (cleaned_messages st).
Proof.
  destruct (anonymize_loop_inv thread [] anon_init anon_inv_init)
    as (st & Hrun & [Hdom Hcnt Hlab Honto Hinj Hnum Hlines]).
  simpl in *. exists st. split; [done|].
  split; [unfold anonymize_users; by rewrite Hrun|].
  split; [done|]. split; [|done].
  intros l. split.
  - intros (a & Ha). apply Hlab in Ha as (k & Hk & ->).
    exists k. split; [lia|done].
  - intros (k & Hk & ->). apply Honto. lia.
Qed.

(** C1. Write [who msg] for the ["user"] of a message, ["Unknown"] where it
    has none. For every sequence of messages the loop ends without raising,
    and its mapping gives a label to exactly the distinct values of [who]
    in the thread; the labels are ["User 1"] to ["User N"], N the number of
    these values; no two authors share one; an author who first appears
    after [k] distinct authors is ["User k+1"]; and each line of the
    transcript starts with the label of its message's author, followed by a
    colon and a space. *)
Theorem anonymize_users_labels (thread : list message) :
  let who := λ msg : message, default "Unknown" (msg !! "user") in
  let authors := λ msgs : list message, (list_to_set (who <$> msgs) : gset string) in
  ∃ st, anonymize_loop anon_init thread = Ok st
    ∧ anonymize_users thread = Ok (join nl (cleaned_messages st))
    ∧ dom (user_mapping st) = authors thread
    ∧ (∀ l, (∃ a, user_mapping st !! a = Some l)
            ↔ ∃ k, 1 ≤ k ≤ size (authors thread) ∧ l = "User " +:+ pretty k)
    ∧ (∀ a b l, user_mapping st !! a = Some l → user_mapping st !! b = Some l → a = b)
    ∧ (∀ earlier msg later,
         thread = earlier ++ msg :: later →
         who msg ∉ authors earlier →
         user_mapping st !! who msg
         = Some ("User " +:+ pretty (S (size (authors earlier)))))
    ∧ Forall2 (λ msg line,
                 ∃ label, user_mapping st !! who msg = Some label
                          ∧ line = label +:+ ": " +:+ clean_text msg)
        thread (cleaned_messages st).
Proof.
  intros who authors.
  destruct (anonymize_loop_result thread)
    as (st & Hrun & Husers & Hdom & Hlabels & Hinj & Hnum & Hlines).
  exists st. repeat split; try done.
  - by apply Hlabels.
  - by apply Hlabels.
Qed.

(** ** Strings *)

Module StrFacts.
Import Str.

Lemma append_cons c s t : String c s +:+ t = String c (s +:+ t).
Proof. reflexivity. Qed.

Lemma append_nil_l s : "" +:+ s = s.
Proof. reflexivity. Qed.

Lemma append_nil_r s : s +:+ "" = s.
Proof. induction s as [|c s IH]; [done|]. by rewrite append_cons, IH. Qed.

Lemma append_assoc s t u : s +:+ t +:+ u = (s +:+ t) +:+ u.
Proof. induction s as [|c s IH]; [done|]. by rewrite !append_cons, IH. Qed.

Lemma length_append s t : String.length (s +:+ t) = String.length s + String.length t.
Proof. induction s as [|c s IH]; [done|]. rewrite append_cons. simpl. by rewrite IH. Qed.

Lemma all_append p s t : all p (s +:+ t) = all p s && all p t.
Proof.
  induction s as [|c s IH]; [done|]. rewrite append_cons. simpl.
  by rewrite IH, andb_assoc.
Qed.

(** Appends to the right, literals opened. *)
Create Rewrite HintDb str.
#[export] Hint Rewrite <- append_assoc : str.
#[export] Hint Rewrite append_cons append_nil_l append_nil_r : str.

(** [lstrip] takes whitespace, and only whitespace, off the left end. *)
Lemma lstrip_spec s :
  ∃ l, s = l +:+ lstrip s ∧ all is_space l = true
       ∧ ∀ c, head (lstrip s) = Some c → is_space c = false.
Proof.
  induction s as [|c s (l & Hs & Hl & Hhead)]; simpl.
  - by exists "".
  - destruct (is_space c) eqn:Hc.
    + exists (String c l). rewrite append_cons, <- Hs. simpl. by rewrite Hc, Hl.
    + exists "". simpl. split; [done|]. split; [done|]. by intros ? [= <-].
Qed.

Lemma rstrip_spec s :
  ∃ r, s = rstrip s +:+ r ∧ all is_space r = true
       ∧ (∀ c, last (rstrip s) = Some c → is_space c = false)
       ∧ (∀ c, head s = Some c → is_space c = false → head (rstrip s) = Some c).
Proof.
  induction s as [|c s (r & Hs & Hr & Hlast & _)]; simpl.
  - by exists "".
  - destruct (rstrip s) as [|c' s'] eqn:Hrs.
    + rewrite append_nil_l in Hs. subst r.
      destruct (is_space c) eqn:Hc.
      * exists (String c s). simpl. rewrite Hc, Hr.
        repeat split; [done|]. intros c0 [= <-]. congruence.
      * exists s. repeat split; [done|by intros ? [= <-]|by intros ? [= <-]].
    + exists r. rewrite append_cons, <- Hs. repeat split; [done| |done].
      intros c0 H. apply Hlast. by destruct s'.
Qed.

Lemma strip_trimmed s : trimmed s (strip s).
Proof.
  unfold trimmed, strip.
  destruct (lstrip_spec s) as (l & Hs & Hl & Hhead).
  destruct (rstrip_spec (lstrip s)) as (r & Hr & Hrs & Hlast & Hkeep).
  exists l, r. split; [by rewrite <- Hr|]. split; [done|]. split; [done|].
  split; [|done]. intros c Hc.
  destruct (lstrip s) as [|c0 s0] eqn:Hl0; [done|].
  specialize (Hhead c0 eq_refl). specialize (Hkeep c0 eq_refl Hhead).
  congruence.
Qed.

Example strip_example : strip ("  a b " +:+ nl) = "a b".
Proof. reflexivity. Qed.

Example strip_blank : strip "   " = "".
Proof. reflexivity. Qed.

End StrFacts.

(** ** The matcher on the mention pattern *)

Module ReFacts.
Import Str Re StrFacts.

Lemma match_here_one a r c s :
  match_here (One a :: r) (String c s)
  = if accepts a c then S <$> match_here r s else None.
Proof. reflexivity. Qed.

Lemma match_here_plus a r c s :
  match_here (Plus a :: r) (String c s)
  = if accepts a c then
      match match_here (Plus a :: r) s with
      | Some n => Some (S n)
      | None => S <$> match_here r s
      end
    else None.
Proof. reflexivity. Qed.

Lemma match_here_plus_nil a r : match_here (Plus a :: r) "" = None.
Proof. reflexivity. Qed.

(** A greedy [p+] before a literal that [p] rejects takes the whole run of
    [p] and never gives a character back with success. *)
Lemma match_plus_then_chr p d s n :
  p d = false →
  match_here [Plus (Class p); One (Chr d)] s = Some n
  ↔ ∃ w rest, s = w +:+ String d rest ∧ w ≠ "" ∧ all p w = true
              ∧ n = S (String.length w).
Proof.
  intros Hd. revert n. induction s as [|c s IH]; intros n.
  - rewrite match_here_plus_nil. split; [done|].
    intros (w & rest & Hs & Hw & _). by destruct w.
  - rewrite match_here_plus. simpl accepts. split.
    + destruct (p c) eqn:Hc; [|done].
      destruct (match_here [Plus (Class p); One (Chr d)] s) as [k|] eqn:Hk.
      * intros [= <-].
        destruct (proj1 (IH k) eq_refl) as (w & rest & -> & Hw & Hall & ->).
        exists (String c w), rest. simpl. rewrite Hc, Hall. by rewrite append_cons.
      * destruct s as [|c' s]; [done|]. rewrite match_here_one. simpl.
        case_bool_decide as Hc'; [|done]. subst c'. intros [= <-].
        exists (String c ""), s. simpl. by rewrite Hc.
    + intros (w & rest & Hs & Hw & Hall & ->).
      destruct w as [|c0 w]; [done|]. rewrite append_cons in Hs.
      injection Hs as -> ->. simpl in Hall.
      apply andb_true_iff in Hall as [-> Hall].
      destruct w as [|c1 w].
      * rewrite append_nil_l, match_here_plus. simpl accepts. rewrite Hd.
        rewrite match_here_one. simpl. by rewrite bool_decide_eq_true_2.
      * assert (match_here [Plus (Class p); One (Chr d)] (String c1 w +:+ String d rest)
                = Some (S (String.length (String c1 w)))) as ->; [|done].
        apply IH. by exists (String c1 w), rest.
Qed.

(** The pattern matches at the start of [s] exactly when [s] starts with a
    mention, and the match is that mention. *)
Lemma match_mention s n :
  match_here MENTION s = Some n
  ↔ ∃ m rest, s = m +:+ rest ∧ is_mention m ∧ n = String.length m.
Proof.
  assert (is_word ">" = false) as Hgt by reflexivity.
  split.
  - destruct s as [|c1 [|c2 [|c3 s]]]; try done; unfold MENTION;
      rewrite !match_here_one; cbn [accepts];
      repeat (case_bool_decide; [|done]); try done. subst.
    destruct (match_here _ s) as [k|] eqn:Hk; [|done].
    apply (match_plus_then_chr _ _ _ _ Hgt) in Hk as (w & rest & -> & Hw & Hall & ->).
    simpl. intros [= <-]. exists ("<@U" +:+ w +:+ ">"), rest.
    split; [by autorewrite with str|].
    split; [by exists w|].
    autorewrite with str. simpl. rewrite length_append. simpl. lia.
  - intros (m & rest & -> & (w & -> & Hw & Hall) & ->).
    autorewrite with str. unfold MENTION. rewrite !match_here_one. cbn [accepts].
    rewrite !bool_decide_eq_true_2 by done.
    assert (match_here [Plus Word; One (Chr ">")] (w +:+ String ">" rest)
            = Some (S (String.length w))) as ->.
    { apply (match_plus_then_chr _ _ _ _ Hgt). by exists w, rest. }
    simpl. rewrite length_append. simpl. do 4 f_equal. lia.
Qed.

(** A match of the mention pattern is never empty. *)
Lemma mention_length s n : match_here MENTION s = Some n → 5 ≤ n.
Proof.
  intros (m & rest & -> & (w & -> & Hw & _) & ->)%match_mention.
  destruct w; [by destruct Hw|]. rewrite !length_append. simpl. lia.
Qed.

Lemma sub_from_skip r repl x rest :
  sub_from r repl (String.length x) (x +:+ rest) = sub_from r repl 0 rest.
Proof. induction x as [|c x IH]; [done|]. rewrite append_cons. simpl. apply IH. Qed.

(** [re.sub] drops a mention at the start and goes on behind it. *)
Lemma sub_mention_match m rest :
  is_mention m → sub MENTION "" (m +:+ rest) = sub MENTION "" rest.
Proof.
  intros Hm.
  assert (match_here MENTION (m +:+ rest) = Some (String.length m)) as Hmatch.
  { apply match_mention. by exists m, rest. }
  destruct m as [|c x]; [by destruct Hm as ([] & ? & ? & _)|].
  rewrite append_cons in *. unfold sub. cbn [sub_from]. cbn [String.length] in Hmatch.
  rewrite Hmatch, append_nil_l. apply sub_from_skip.
Qed.

(** Where no mention starts, it keeps the character. *)
Lemma sub_mention_keep c s :
  (∀ m rest, is_mention m → String c s ≠ m +:+ rest) →
  sub MENTION "" (String c s) = String c (sub MENTION "" s).
Proof.
  intros Hno. unfold sub. cbn [sub_from].
  destruct (match_here MENTION (String c s)) as [[|n]|] eqn:Hmatch; try done.
  apply match_mention in Hmatch as (m & rest & Hs & Hm & _).
  by destruct (Hno m rest).
Qed.

Lemma mention_dec s :
  (∃ m rest, s = m +:+ rest ∧ is_mention m)
  ∨ (∀ m rest, is_mention m → s ≠ m +:+ rest).
Proof.
  destruct (match_here MENTION s) as [n|] eqn:Hmatch.
  - left. apply match_mention in Hmatch as (m & rest & ? & ? & _). eauto.
  - right. intros m rest Hm ->.
    assert (match_here MENTION (m +:+ rest) = Some (String.length m)); [|congruence].
    apply match_mention. eauto.
Qed.

(** [re.sub] with the mention pattern removes the mentions, from left to
    right, and nothing else. *)
Lemma sub_mention_removes s : removes is_mention s (sub MENTION "" s).
Proof.
  remember (String.length s) as n eqn:Hn. revert s Hn.
  induction n as [n IH] using lt_wf_ind. intros s ->.
  destruct s as [|c s]; [constructor|].
  destruct (mention_dec (String c s)) as [(m & rest & Hs & Hm)|Hno].
  - rewrite Hs, sub_mention_match by done.
    apply removes_match; [done|]. eapply IH; [|done].
    rewrite Hs, length_append. destruct Hm as (w & -> & _).
    rewrite !append_cons. simpl. lia.
  - rewrite sub_mention_keep by done.
    apply removes_keep; [done|]. eapply IH; [|done]. simpl. lia.
Qed.

(** And that fixes its result. *)
Lemma removes_mention_sub s out :
  removes is_mention s out → out = sub MENTION "" s.
Proof.
  induction 1 as [|m rest out Hm _ IH|c s out Hno _ IH].
  - done.
  - by rewrite sub_mention_match.
  - by rewrite sub_mention_keep, IH.
Qed.

Lemma free_of_sub s : free_of is_mention s → sub MENTION "" s = s.
Proof.
  induction s as [|c s IH]; intros Hfree; [done|].
  rewrite sub_mention_keep, IH; [done| |].
  - intros before m after Hm ->.
    by apply (Hfree (String c before) m after).
  - intros m rest Hm Hs. apply (Hfree "" m rest Hm). by rewrite append_nil_l.
Qed.

(** The pattern wants a [U] and at least one word character, takes letters
    of either case and the underscore, and leaves an unclosed mention. *)
Example sub_example :
  sub MENTION "" "<@U2> help, <@U1x_9>build <@U> <@W1> <@U1"
  = " help, build <@U> <@W1> <@U1".
Proof. reflexivity. Qed.

End ReFacts.

(** ** The anonymizer: texts *)

(** What the code does with a text, exactly. It is trimmed at both ends
    first; from the trimmed text exactly the mentions [<@U\w+>] are removed,
    left to right, and every other character stays in place (also the
    whitespace a removed mention leaves at an end); this fixes the result;
    and a trimmed text without such a mention is the result itself. *)
Theorem clean_text_removes_mentions (msg : message) :
  ∃ core, trimmed (default "" (msg !! "text")) core
    ∧ removes is_mention core (clean_text msg)
    ∧ (∀ out, removes is_mention core out → out = clean_text msg)
    ∧ (free_of is_mention core → clean_text msg = core).
Proof.
  exists (Str.strip (default "" (msg !! "text"))). unfold clean_text.
  split; [apply StrFacts.strip_trimmed|].
  split; [apply ReFacts.sub_mention_removes|].
  split; [apply ReFacts.removes_mention_sub|apply ReFacts.free_of_sub].
Qed.

(** C2 fails on the code: [<@W123>] is an explicit mention ([<@], an
    uppercase-alnum identifier, [>]; the user ids of Slack start with [U] or
    [W]), and the code, whose pattern wants a [U], keeps it, against the
    comment of line 50. *)
Lemma clean_text_keeps_W_mention :
  clean_text (mk_message "U1" "<@W123> done") = "<@W123> done"
  ∧ clean_text (mk_message "U1" "<@W123> done")
    ≠ clean_text_as_specified (mk_message "U1" "<@W123> done").
Proof. split; [by vm_compute|]. vm_compute. discriminate. Qed.

(** The other way round: [<@Uab_c>] is no uppercase-alnum identifier, and
    the code removes it; the space before it stays at the end. *)
Example clean_text_removes_lowercase_mention :
  clean_text (mk_message "U1" "see <@Uab_c>") = "see "
  ∧ clean_text_as_specified (mk_message "U1" "see <@Uab_c>") = "see <@Uab_c>".
Proof. by vm_compute. Qed.

(** C3, as the code has it: the space that followed the mention stays, so
    the first line has two spaces after the colon. *)
Theorem anonymize_users_scenario :
  anonymize_users scenario
  = Ok ("User 1:  help, build broke" +:+ nl +:+ "User 2: fixed by reverting commit").
Proof. by vm_compute. Qed.

(** C3 as stated fails: the transcript is not the one with a single space. *)
Lemma anonymize_users_scenario_not_trimmed :
  anonymize_users scenario
  ≠ Ok ("User 1: help, build broke" +:+ nl +:+ "User 2: fixed by reverting commit").
Proof. vm_compute. discriminate. Qed.

(** A message without ["user"] shares its label with the author
    ["Unknown"]; a message without ["text"] still gives a line. *)
Example anonymize_users_unknown :
  anonymize_users [mk_message "U7" " first "; {[ "text" := "second" ]};
                   mk_message "Unknown" "third"; {[ "user" := "U7" ]}]
  = Ok ("User 1: first" +:+ nl +:+ "User 2: second" +:+ nl
        +:+ "User 2: third" +:+ nl +:+ "User 1: ").
Proof. by vm_compute. Qed.

Example anonymize_users_empty : anonymize_users [] = Ok "".
Proof. reflexivity. Qed.

(** ** The summarizer *)

Lemma with_effects_app s es1 es2 :
  with_effects (with_effects s es1) es2 = with_effects s (es1 ++ es2).
Proof. unfold with_effects. simpl. by rewrite <- app_assoc. Qed.

(** A failed inference call is caught: one request, one log record, and the
    fixed text as the summary. *)
Lemma summarize_failure cfg w text s :
  inference_fails (bedrock w (MODEL_ID cfg) (summarize_request text)) →
  summarize_with_bedrock cfg w text s
  = (Ok (PStr ERROR_SUMMARY),
     with_effects s [the_request cfg text;
                     Logged ERROR "Error calling AWS Bedrock: {e}"]).
Proof.
  intros Hfail. run.
  destruct (bedrock w _ _) as [e|[e|[[fields|shown]|]]]; simpl in *;
    rewrite ?Hfail; try done; unfold with_effects; simpl;
    by rewrite <- app_assoc.
Qed.

(** A response that parses to an object gives its ["content"], or the
    default. *)
Lemma summarize_object cfg w text s fields :
  bedrock w (MODEL_ID cfg) (summarize_request text)
    = Response (Bytes (Some (JsonObject fields))) →
  summarize_with_bedrock cfg w text s
  = (Ok (default (PStr NO_SUMMARY) (fields !! "content")),
     with_effects s [the_request cfg text]).
Proof. intros Hreply. run. by rewrite Hreply. Qed.

(** What is no [Exception] passes through. *)
Lemma summarize_uncaught cfg w text s e :
  bedrock w (MODEL_ID cfg) (summarize_request text) = InvokeRaises e
  ∨ bedrock w (MODEL_ID cfg) (summarize_request text) = Response (Unreadable e) →
  is_Exception e = false →
  summarize_with_bedrock cfg w text s
  = (Raise e, with_effects s [the_request cfg text]).
Proof. intros [Hreply|Hreply] He; run; by rewrite Hreply; simpl; rewrite He. Qed.

(** The summarizer sends one request, whatever comes back, and raises only
    what is no [Exception]. *)
Lemma summarize_cases cfg w text s :
  (∃ v es, summarize_with_bedrock cfg w text s
           = (Ok v, with_effects s (the_request cfg text :: es))
           ∧ Forall (λ e, ∃ lvl fmt, e = Logged lvl fmt) es)
  ∨ (∃ e, summarize_with_bedrock cfg w text s
          = (Raise e, with_effects s [the_request cfg text])
          ∧ is_Exception e = false
          ∧ (bedrock w (MODEL_ID cfg) (summarize_request text) = InvokeRaises e
             ∨ bedrock w (MODEL_ID cfg) (summarize_request text)
               = Response (Unreadable e))).
Proof.
  destruct (bedrock w (MODEL_ID cfg) (summarize_request text))
    as [e|[e|[[fields|shown]|]]] eqn:Hreply.
  - destruct (is_Exception e) eqn:He.
    + left. eexists _, _. rewrite summarize_failure by (by rewrite Hreply).
      split; [done|]. repeat constructor. eauto.
    + right. exists e. rewrite (summarize_uncaught _ _ _ _ e) by eauto. eauto.
  - destruct (is_Exception e) eqn:He.
    + left. eexists _, _. rewrite summarize_failure by (by rewrite Hreply).
      split; [done|]. repeat constructor. eauto.
    + right. exists e. rewrite (summarize_uncaught _ _ _ _ e) by eauto. eauto.
  - left. eexists _, []. by rewrite (summarize_object _ _ _ _ fields).
  - left. eexists _, _. rewrite summarize_failure by (by rewrite Hreply).
    split; [done|]. repeat constructor. eauto.
  - left. eexists _, _. rewrite summarize_failure by (by rewrite Hreply).
    split; [done|]. repeat constructor. eauto.
Qed.

(** ** The event handler *)

Lemma anonymize_users_total thread : ∃ transcript, anonymize_users thread = Ok transcript.
Proof.
  destruct (anonymize_loop_inv thread [] anon_init anon_inv_init) as (st & Hrun & _).
  unfold anonymize_users. rewrite Hrun. simpl. eauto.
Qed.

(** Up to the fetch. *)
Lemma handle_reaction_fetch cfg w ev channel ts s :
  triggers cfg ev channel ts →
  handle_reaction cfg w ev s
  = let s1 := with_effects s [RECEIVED; TRIGGERED; ConversationsReplies channel ts 50] in
    match slack w channel ts 50 with
    | FetchRaises e => (Raise e, s1)
    | FetchReturns response =>
        match default [] response with
        | [] => (Ok tt, with_effects s1 [NO_MESSAGES])
        | thread =>
            (anonymized_text ← lift (anonymize_users thread);
             summary ← summarize_with_bedrock cfg w anonymized_text;
             _ ← write_file w OUTPUT_PATH (output_record anonymized_text (py_str summary));
             logging_info "Anonymized conversation and plain-text summary have been saved to a file.") s1
        end
    end.
Proof.
  destruct ev as [r it]. intros [Hr (it' & Hit & Hch & Hts)]. simpl in *. subst.
  step. rewrite bool_decide_eq_false_2 by (intros H; by apply H).
  simpl. rewrite Hch, Hts. simpl.
  unfold with_effects. simpl. rewrite <- !app_assoc. simpl.
  destruct (slack w channel ts 50) as [e|response]; [done|]. simpl.
  destruct (default [] response); [|done].
  simpl. by rewrite <- !app_assoc.
Qed.

(** From the transcript on. *)
Lemma handle_reaction_thread cfg w ev channel ts response msg rest transcript s :
  triggers cfg ev channel ts →
  slack w channel ts 50 = FetchReturns response →
  default [] response = msg :: rest →
  anonymize_users (msg :: rest) = Ok transcript →
  handle_reaction cfg w ev s
  = let s1 := with_effects s [RECEIVED; TRIGGERED; ConversationsReplies channel ts 50] in
    match summarize_with_bedrock cfg w transcript s1 with
    | (Raise e, s2) => (Raise e, s2)
    | (Ok summary, s2) =>
        match write_file w OUTPUT_PATH (output_record transcript (py_str summary)) s2 with
        | (Raise e, s3) => (Raise e, s3)
        | (Ok _, s3) => (Ok tt, with_effects s3 [SAVED])
        end
    end.
Proof.
  intros Htrig Hfetch Hthread Hanon.
  rewrite (handle_reaction_fetch _ _ _ channel ts) by done.
  rewrite Hfetch, Hthread. cbv zeta. step. rewrite Hanon.
  destruct (summarize_with_bedrock _ _ _ _) as [[summary|e] s2]; [|done].
  by destruct (write_file _ _ _ _) as [[[]|e] s3].
Qed.

Lemma bulb_triggers : triggers default_config bulb_event "C024BE91L" "1355517523.000005".
Proof. split; [done|]. eexists. split; [done|]. by vm_compute. Qed.

(** C8. An event whose emoji is not the target one makes the handler return
    after two log records: no thread is fetched, no inference call is made,
    and no file is opened or written. *)
Theorem handle_reaction_other_emoji cfg w ev s :
  reaction ev ≠ Some (SPECIFIC_EMOJI cfg) →
  handle_reaction cfg w ev s = (Ok tt, with_effects s [RECEIVED; IGNORING]).
Proof.
  intros Hne. step. rewrite bool_decide_eq_true_2 by done. simpl.
  unfold with_effects. by rewrite <- app_assoc.
Qed.

Lemma handle_reaction_other_emoji_witness :
  handle_reaction default_config
    (a_world (FetchReturns (Some scenario)) (Response (Bytes None)) WriteDone)
    thumbsup_event old_state
  = (Ok tt, with_effects old_state [RECEIVED; IGNORING]).
Proof. apply handle_reaction_other_emoji. simpl. discriminate. Defined.

(** C7. An event with the target emoji whose thread comes back empty (or
    without a ["messages"] key) makes the handler return after the fetch and
    one more log record: no inference call is made and no file is opened or
    written. *)
Theorem handle_reaction_empty_thread cfg w ev channel ts response s :
  triggers cfg ev channel ts →
  slack w channel ts 50 = FetchReturns response →
  default [] response = [] →
  handle_reaction cfg w ev s
  = (Ok tt, with_effects s [RECEIVED; TRIGGERED;
                            ConversationsReplies channel ts 50; NO_MESSAGES]).
Proof.
  intros Htrig Hfetch Hempty.
  rewrite (handle_reaction_fetch _ _ _ channel ts) by done.
  rewrite Hfetch, Hempty. cbv zeta. by rewrite with_effects_app.
Qed.

Lemma handle_reaction_empty_thread_witness :
  handle_reaction default_config
    (a_world (FetchReturns (Some [])) (Response (Bytes None)) WriteDone)
    bulb_event old_state
  = (Ok tt, with_effects old_state
              [RECEIVED; TRIGGERED;
               ConversationsReplies "C024BE91L" "1355517523.000005" 50; NO_MESSAGES]).
Proof.
  apply (handle_reaction_empty_thread _ _ _ _ _ (Some []));
    [apply bulb_triggers|reflexivity|reflexivity].
Defined.

(** C9. When the handler completes an event with the target emoji and a
    thread that is not empty, the file [conversation_summary.txt] holds
    exactly ["Original Conversation:\n<transcript>\n\nSummary:\n<summary>"]
    for the transcript of the fetched thread and the summary that the
    summarizer returned in this run (its text if it is a string, its
    rendering otherwise), whatever the file held before; no other file
    changes; and that text is what the one write of the run carried. *)
Theorem handle_reaction_output cfg w ev channel ts response s s' :
  triggers cfg ev channel ts →
  slack w channel ts 50 = FetchReturns response →
  default [] response ≠ [] →
  handle_reaction cfg w ev s = (Ok tt, s') →
  ∃ transcript summary text,
    anonymize_users (default [] response) = Ok transcript
    ∧ (summarize_with_bedrock cfg w transcript
         (with_effects s [RECEIVED; TRIGGERED; ConversationsReplies channel ts 50])).1
      = Ok summary
    ∧ (summary = PStr text ∨ summary = PRepr text)
    ∧ files s' = <["conversation_summary.txt" :=
                     "Original Conversation:" +:+ nl +:+ transcript
                     +:+ nl +:+ nl +:+ "Summary:" +:+ nl +:+ text]> (files s)
    ∧ ∃ es, trace s' = es ++ [OpenForWrite "conversation_summary.txt";
                              FileWrite "conversation_summary.txt"
                                ("Original Conversation:" +:+ nl +:+ transcript
                                 +:+ nl +:+ nl +:+ "Summary:" +:+ nl +:+ text);
                              SAVED].
Proof.
  intros Htrig Hfetch Hthread Hrun.
  destruct (default [] response) as [|msg rest] eqn:Hresp; [done|].
  destruct (anonymize_users_total (msg :: rest)) as (transcript & Hanon).
  rewrite (handle_reaction_thread _ _ _ channel ts response msg rest transcript) in Hrun
    by done.
  cbv zeta in Hrun.
  destruct (summarize_cases cfg w transcript
              (with_effects s [RECEIVED; TRIGGERED; ConversationsReplies channel ts 50]))
    as [(summary & es & Hsum & _)|(e & Hsum & _)];
    rewrite Hsum in *; [|done].
  exists transcript, summary, (py_str summary).
  split; [done|]. split; [by rewrite Hsum|].
  split; [destruct summary; eauto|].
  unfold write_file in Hrun.
  destruct (disk w _ _); try done.
  injection Hrun as <-. simpl. split; [done|].
  exists ((trace s ++ [RECEIVED; TRIGGERED; ConversationsReplies channel ts 50])
          ++ the_request cfg transcript :: es).
  by rewrite <- !app_assoc.
Qed.

(** A run of the whole pipeline over an older summary: the file is the new
    record, to the letter. *)
Lemma handle_reaction_output_witness :
  files (handle_reaction default_config good_world bulb_event old_state).2
  = {[ "conversation_summary.txt" :=
         "Original Conversation:" +:+ nl
         +:+ "User 1:  help, build broke" +:+ nl
         +:+ "User 2: fixed by reverting commit" +:+ nl +:+ nl
         +:+ "Summary:" +:+ nl +:+ "Build broke; a revert fixed it." ]}.
Proof.
  destruct (handle_reaction_output default_config good_world bulb_event
              "C024BE91L" "1355517523.000005" (Some scenario) old_state
              (handle_reaction default_config good_world bulb_event old_state).2)
    as (transcript & summary & text & Hanon & Hsum & Htext & Hfiles & _).
  - apply bulb_triggers.
  - reflexivity.
  - discriminate.
  - by vm_compute.
  - vm_compute in Hanon. injection Hanon as <-.
    vm_compute in Hsum. injection Hsum as <-.
    destruct Htext as [[= <-]|[=]].
    rewrite Hfiles. by vm_compute.
Defined.

(** The handler on a thread, once the summary is known and the disk takes
    the write. *)
Lemma handle_reaction_writes cfg w ev channel ts response transcript summary es s :
  triggers cfg ev channel ts →
  slack w channel ts 50 = FetchReturns response →
  default [] response ≠ [] →
  anonymize_users (default [] response) = Ok transcript →
  (∀ s1, summarize_with_bedrock cfg w transcript s1 = (Ok summary, with_effects s1 es)) →
  disk w OUTPUT_PATH (output_record transcript (py_str summary)) = WriteDone →
  handle_reaction cfg w ev s
  = (Ok tt,
     {| trace := trace s
                 ++ [RECEIVED; TRIGGERED; ConversationsReplies channel ts 50]
                 ++ es
                 ++ [OpenForWrite OUTPUT_PATH;
                     FileWrite OUTPUT_PATH (output_record transcript (py_str summary));
                     SAVED];
        files := <[OUTPUT_PATH := output_record transcript (py_str summary)]> (files s) |}).
Proof.
  intros Htrig Hfetch Hthread Hanon Hsum Hdisk.
  destruct (default [] response) as [|msg rest] eqn:Hresp; [done|].
  rewrite (handle_reaction_thread _ _ _ channel ts response msg rest transcript) by done.
  cbv zeta. rewrite Hsum. unfold write_file. rewrite Hdisk.
  unfold with_effects. simpl. by rewrite <- !app_assoc.
Qed.

(** C4. When the inference call fails (the transport or the endpoint raises
    an [Exception], or the response is malformed), the summarizer sends its
    one request, logs the failure and returns ["Error generating summary."];
    the handler then writes the transcript of the thread followed by that
    text to the output file. *)
Theorem inference_failure_fallback cfg w transcript s :
  inference_fails (bedrock w (MODEL_ID cfg) (summarize_request transcript)) →
  summarize_with_bedrock cfg w transcript s
  = (Ok (PStr "Error generating summary."),
     with_effects s [InvokeModel (MODEL_ID cfg) (summarize_request transcript);
                     Logged ERROR "Error calling AWS Bedrock: {e}"])
  ∧ ∀ ev channel ts response s0,
      triggers cfg ev channel ts →
      slack w channel ts 50 = FetchReturns response →
      default [] response ≠ [] →
      anonymize_users (default [] response) = Ok transcript →
      disk w OUTPUT_PATH (output_record transcript "Error generating summary.") = WriteDone →
      (handle_reaction cfg w ev s0).1 = Ok tt
      ∧ files (handle_reaction cfg w ev s0).2
        = <[OUTPUT_PATH := "Original Conversation:" +:+ nl +:+ transcript
                           +:+ nl +:+ nl +:+ "Summary:" +:+ nl
                           +:+ "Error generating summary."]> (files s0).
Proof.
  intros Hfail. split; [by apply summarize_failure|].
  intros ev channel ts response s0 Htrig Hfetch Hthread Hanon Hdisk.
  rewrite (handle_reaction_writes _ _ _ channel ts response transcript
             (PStr ERROR_SUMMARY)
             [the_request cfg transcript;
              Logged ERROR "Error calling AWS Bedrock: {e}"] s0); try done.
  intros s1. by apply summarize_failure.
Qed.

Lemma inference_failure_fallback_witness :
  summarize_with_bedrock default_config unreachable_world scenario_transcript old_state
  = (Ok (PStr "Error generating summary."),
     with_effects old_state
       [InvokeModel "anthropic.claude-v2" (summarize_request scenario_transcript);
        Logged ERROR "Error calling AWS Bedrock: {e}"])
  ∧ (handle_reaction default_config unreachable_world bulb_event old_state).1 = Ok tt
  ∧ files (handle_reaction default_config unreachable_world bulb_event old_state).2
    = {[ OUTPUT_PATH := "Original Conversation:" +:+ nl +:+ scenario_transcript
                        +:+ nl +:+ nl +:+ "Summary:" +:+ nl
                        +:+ "Error generating summary." ]}.
Proof.
  destruct (inference_failure_fallback default_config unreachable_world
              scenario_transcript old_state) as [Hsum Hfile]; [reflexivity|].
  split; [exact Hsum|].
  destruct (Hfile bulb_event "C024BE91L" "1355517523.000005" (Some scenario) old_state)
    as [Hok Hfiles];
    [apply bulb_triggers|reflexivity|discriminate|by vm_compute|reflexivity|].
  split; [exact Hok|]. rewrite Hfiles. by vm_compute.
Defined.

(** C10. When the response parses to an object without ["content"], the
    summarizer returns ["No summary available."], which is not the text of
    the failure, and logs nothing; the handler writes that text to the
    output file as the summary. *)
Theorem missing_content_default cfg w transcript fields s :
  bedrock w (MODEL_ID cfg) (summarize_request transcript)
    = Response (Bytes (Some (JsonObject fields))) →
  fields !! "content" = None →
  summarize_with_bedrock cfg w transcript s
  = (Ok (PStr "No summary available."),
     with_effects s [InvokeModel (MODEL_ID cfg) (summarize_request transcript)])
  ∧ "No summary available." ≠ "Error generating summary."
  ∧ ∀ ev channel ts response s0,
      triggers cfg ev channel ts →
      slack w channel ts 50 = FetchReturns response →
      default [] response ≠ [] →
      anonymize_users (default [] response) = Ok transcript →
      disk w OUTPUT_PATH (output_record transcript "No summary available.") = WriteDone →
      (handle_reaction cfg w ev s0).1 = Ok tt
      ∧ files (handle_reaction cfg w ev s0).2
        = <[OUTPUT_PATH := "Original Conversation:" +:+ nl +:+ transcript
                           +:+ nl +:+ nl +:+ "Summary:" +:+ nl
                           +:+ "No summary available."]> (files s0).
Proof.
  intros Hreply Hnone.
  assert (∀ s1, summarize_with_bedrock cfg w transcript s1
                = (Ok (PStr NO_SUMMARY), with_effects s1 [the_request cfg transcript]))
    as Hsum.
  { intros s1. rewrite (summarize_object _ _ _ _ fields) by done. by rewrite Hnone. }
  split; [apply Hsum|]. split; [done|].
  intros ev channel ts response s0 Htrig Hfetch Hthread Hanon Hdisk.
  by rewrite (handle_reaction_writes _ _ _ channel ts response transcript
                (PStr NO_SUMMARY) [the_request cfg transcript] s0).
Qed.

Lemma missing_content_default_witness :
  summarize_with_bedrock default_config contentless_world scenario_transcript old_state
  = (Ok (PStr "No summary available."),
     with_effects old_state
       [InvokeModel "anthropic.claude-v2" (summarize_request scenario_transcript)])
  ∧ files (handle_reaction default_config contentless_world bulb_event old_state).2
    = {[ OUTPUT_PATH := "Original Conversation:" +:+ nl +:+ scenario_transcript
                        +:+ nl +:+ nl +:+ "Summary:" +:+ nl
                        +:+ "No summary available." ]}.
Proof.
  destruct (missing_content_default default_config contentless_world
              scenario_transcript {[ "completion" := PStr "A revert fixed it." ]} old_state)
    as (Hsum & _ & Hfile); [reflexivity|by vm_compute|].
  split; [exact Hsum|].
  destruct (Hfile bulb_event "C024BE91L" "1355517523.000005" (Some scenario) old_state)
    as [_ Hfiles];
    [apply bulb_triggers|reflexivity|discriminate|by vm_compute|reflexivity|].
  rewrite Hfiles. by vm_compute.
Defined.

(** An event with the target emoji that lacks a key raises [KeyError]
    before anything is fetched. *)
Lemma handle_reaction_missing_key cfg w ev e s :
  reaction ev = Some (SPECIFIC_EMOJI cfg) →
  missing_key ev e →
  handle_reaction cfg w ev s = (Raise e, with_effects s [RECEIVED]).
Proof.
  destruct ev as [r it]. simpl. intros -> Hmiss. step.
  rewrite bool_decide_eq_false_2 by (intros H; by apply H). simpl.
  destruct Hmiss as [[Hit ->]|(it' & Hit & [[Hch ->]|([ch Hch] & Hts & ->)])];
    simpl in *; subst; simpl; rewrite ?Hch, ?Hts; by simpl.
Qed.

Lemma triggers_unique cfg ev channel ts channel' ts' :
  triggers cfg ev channel ts → triggers cfg ev channel' ts' →
  channel' = channel ∧ ts' = ts.
Proof.
  intros [_ (it & Hit & Hch & Hts)] [_ (it' & Hit' & Hch' & Hts')]. split; congruence.
Qed.

(** The result of a run on a thread that came back with a message in it. *)
Lemma handle_reaction_thread_result cfg w ev channel ts response transcript s :
  triggers cfg ev channel ts →
  slack w channel ts 50 = FetchReturns response →
  default [] response ≠ [] →
  anonymize_users (default [] response) = Ok transcript →
  (handle_reaction cfg w ev s).1
  = match (summarize_with_bedrock cfg w transcript
             (with_effects s [RECEIVED; TRIGGERED; ConversationsReplies channel ts 50])).1 with
    | Raise e => Raise e
    | Ok summary =>
        match disk w OUTPUT_PATH (output_record transcript (py_str summary)) with
        | OpenRaises e | WriteRaises e _ => Raise e
        | WriteDone => Ok tt
        end
    end.
Proof.
  intros Htrig Hfetch Hthread Hanon.
  destruct (default [] response) as [|msg rest] eqn:Hresp; [done|].
  rewrite (handle_reaction_thread _ _ _ channel ts response msg rest transcript) by done.
  cbv zeta. destruct (summarize_with_bedrock _ _ _ _) as [[summary|e] s2]; [|done].
  simpl. unfold write_file. by destruct (disk w _ _).
Qed.

(** C5, as the code has it. The handler has no [try] of its own, and the
    exception [e] leaves a run exactly in these cases, all of them for an
    event with the target emoji: the event lacks ["item"], or its item lacks
    ["channel"] or ["ts"], and [e] is the [KeyError] for that key; the
    thread fetch raised [e]; the inference call on the transcript of the
    fetched thread raised [e] and [e] is no [Exception]; or opening or
    writing [conversation_summary.txt] for the record of this run raised
    [e]. Anonymizing never raises, and the summarizer turns every
    [Exception] of the inference call into its fixed text. *)
Theorem handle_reaction_raises_iff cfg w ev s :
  (∀ e,
     (handle_reaction cfg w ev s).1 = Raise e
     ↔ reaction ev = Some (SPECIFIC_EMOJI cfg)
       ∧ ((item ev = None ∧ e = KeyError "item")
          ∨ (∃ it, item ev = Some it ∧ it !! "channel" = None ∧ e = KeyError "channel")
          ∨ (∃ it, item ev = Some it ∧ is_Some (it !! "channel") ∧ it !! "ts" = None
                   ∧ e = KeyError "ts")
          ∨ (∃ channel ts, triggers cfg ev channel ts
               ∧ (slack w channel ts 50 = FetchRaises e
                  ∨ ∃ response transcript,
                      slack w channel ts 50 = FetchReturns response
                      ∧ default [] response ≠ []
                      ∧ anonymize_users (default [] response) = Ok transcript
                      ∧ ((e = KeyboardInterrupt
                          ∧ (bedrock w (MODEL_ID cfg) (summarize_request transcript)
                               = InvokeRaises e
                             ∨ bedrock w (MODEL_ID cfg) (summarize_request transcript)
                               = Response (Unreadable e)))
                         ∨ ∃ summary text,
                             (summarize_with_bedrock cfg w transcript
                                (with_effects s [RECEIVED; TRIGGERED;
                                                 ConversationsReplies channel ts 50])).1
                             = Ok summary
                             ∧ (summary = PStr text ∨ summary = PRepr text)
                             ∧ (disk w "conversation_summary.txt"
                                  ("Original Conversation:" +:+ nl +:+ transcript
                                   +:+ nl +:+ nl +:+ "Summary:" +:+ nl +:+ text)
                                  = OpenRaises e
                                ∨ ∃ kept,
                                    disk w "conversation_summary.txt"
                                      ("Original Conversation:" +:+ nl +:+ transcript
                                       +:+ nl +:+ nl +:+ "Summary:" +:+ nl +:+ text)
                                    = WriteRaises e kept))))))
  ∧ (∀ thread : list message, ∃ transcript, anonymize_users thread = Ok transcript)
  ∧ (∀ transcript s1 e,
       e ≠ KeyboardInterrupt →
       bedrock w (MODEL_ID cfg) (summarize_request transcript) = InvokeRaises e
       ∨ bedrock w (MODEL_ID cfg) (summarize_request transcript) = Response (Unreadable e) →
       (summarize_with_bedrock cfg w transcript s1).1
       = Ok (PStr "Error generating summary.")).
Proof.
  split; [|split; [apply anonymize_users_total|]]; last first.
  { intros transcript s1 e He Hreply. rewrite summarize_failure; [done|].
    destruct Hreply as [-> | ->]; simpl; by destruct e. }
  intros e.
  destruct (decide (reaction ev = Some (SPECIFIC_EMOJI cfg))) as [Hr|Hr]; last first.
  { assert ((handle_reaction cfg w ev s).1 = Ok tt) as ->
      by (step; by rewrite bool_decide_eq_true_2).
    split; [done|]. by intros [? _]. }
  assert (∀ e0, missing_key ev e0 → (handle_reaction cfg w ev s).1 = Raise e0) as Hkey.
  { intros e0 Hmiss. by rewrite (handle_reaction_missing_key _ _ _ e0). }
  destruct (item ev) as [it|] eqn:Hit.
  2: { rewrite (Hkey (KeyError "item")) by (by left). split.
       - intros [= <-]. split; [done|]. by left.
       - intros [_ [[_ ->]|[(it & ? & _)|[(it & ? & _)|(c & t & [_ (it & ? & _)] & _)]]]];
           first [done|congruence]. }
  destruct (it !! "channel") as [channel|] eqn:Hch.
  2: { rewrite (Hkey (KeyError "channel")) by (right; exists it; eauto). split.
       - intros [= <-]. split; [done|]. right. left. eauto.
       - intros [_ [[? _]|[(it' & ? & ? & ->)|[(it' & ? & [? ?] & _)
                      |(c & t & [_ (it' & ? & ? & _)] & _)]]]];
           first [done|congruence]. }
  destruct (it !! "ts") as [ts|] eqn:Hts.
  2: { rewrite (Hkey (KeyError "ts"))
         by (right; exists it; split; [done|]; right; eauto).
       split.
       - intros [= <-]. split; [done|]. right. right. left. exists it. eauto.
       - intros [_ [[? _]|[(it' & ? & ? & _)|[(it' & ? & _ & ? & ->)
                      |(c & t & [_ (it' & ? & ? & ?)] & _)]]]];
           first [done|congruence]. }
  assert (triggers cfg ev channel ts) as Htrig by (split; eauto).
  assert (∀ P : string → string → Prop,
            (∃ c t, triggers cfg ev c t ∧ P c t) ↔ P channel ts) as Hhere.
  { intros P. split; [|eauto].
    intros (c & t & Htrig' & HP).
    by destruct (triggers_unique _ _ _ _ _ _ Htrig Htrig') as [-> ->]. }
  transitivity (slack w channel ts 50 = FetchRaises e
      ∨ ∃ response transcript,
          slack w channel ts 50 = FetchReturns response
          ∧ default [] response ≠ []
          ∧ anonymize_users (default [] response) = Ok transcript
          ∧ ((e = KeyboardInterrupt
              ∧ (bedrock w (MODEL_ID cfg) (summarize_request transcript) = InvokeRaises e
                 ∨ bedrock w (MODEL_ID cfg) (summarize_request transcript)
                   = Response (Unreadable e)))
             ∨ ∃ summary text,
                 (summarize_with_bedrock cfg w transcript
                    (with_effects s [RECEIVED; TRIGGERED;
                                     ConversationsReplies channel ts 50])).1
                 = Ok summary
                 ∧ (summary = PStr text ∨ summary = PRepr text)
                 ∧ (disk w "conversation_summary.txt"
                      ("Original Conversation:" +:+ nl +:+ transcript
                       +:+ nl +:+ nl +:+ "Summary:" +:+ nl +:+ text)
                      = OpenRaises e
                    ∨ ∃ kept,
                        disk w "conversation_summary.txt"
                          ("Original Conversation:" +:+ nl +:+ transcript
                           +:+ nl +:+ nl +:+ "Summary:" +:+ nl +:+ text)
                        = WriteRaises e kept))); last first.
  { rewrite <- (Hhere (λ c t, slack w c t 50 = FetchRaises e ∨ _)).
    split; [intros H; split; [done|]; do 3 right; exact H|].
    intros [_ [[? _]|[(it' & ? & ? & _)|[(it' & ? & _ & ? & _)|H]]]];
      simplify_eq; done. }
  destruct (slack w channel ts 50) as [e0|response] eqn:Hfetch.
  { rewrite (handle_reaction_fetch _ _ _ channel ts) by done. cbv zeta.
    rewrite Hfetch. simpl. split.
    - intros [= <-]. by left.
    - intros [[= <-]|(? & ? & [=] & _)]. done. }
  destruct (default [] response) as [|msg rest] eqn:Hresp.
  { rewrite (handle_reaction_fetch _ _ _ channel ts) by done. cbv zeta.
    rewrite Hfetch, Hresp. simpl. split; [done|].
    intros [[=]|(response' & ? & [= <-] & Hne & _)]. by rewrite Hresp in Hne. }
  destruct (anonymize_users_total (msg :: rest)) as (transcript & Hanon).
  rewrite (handle_reaction_thread_result _ _ _ channel ts response transcript)
    by (by rewrite ?Hresp).
  destruct (summarize_cases cfg w transcript
              (with_effects s [RECEIVED; TRIGGERED; ConversationsReplies channel ts 50]))
    as [(summary & es & Hsum & _)|(e0 & Hsum & He0 & Hreply)]; rewrite Hsum; simpl.
  - assert (∃ text, (summary = PStr text ∨ summary = PRepr text)
                    ∧ py_str summary = text) as (text & Htext & Hpy)
      by (destruct summary; eauto).
    split.
    + intros Hraise. right. exists response, transcript.
      rewrite Hresp. split; [done|]. split; [done|]. split; [done|].
      right. exists summary, text. rewrite Hsum. split; [done|]. split; [done|].
      unfold OUTPUT_PATH, output_record in Hraise. rewrite Hpy in Hraise.
      destruct (disk w _ _) as [e1|e1 kept|]; simplify_eq; eauto.
    + intros [[=]|(response' & transcript' & [= <-] & _ & Hanon' & Hcase)].
      rewrite Hresp in Hanon'.
      assert (transcript' = transcript) as -> by congruence.
      destruct Hcase as [[-> Hreply]|(summary' & text' & Hsum' & Htext' & Hdisk)].
      * rewrite (summarize_uncaught _ _ _ _ KeyboardInterrupt) in Hsum by done.
        discriminate.
      * rewrite Hsum in Hsum'. simpl in Hsum'. simplify_eq.
        assert (text' = py_str summary') as -> by (by destruct Htext' as [-> | ->]).
        unfold OUTPUT_PATH, output_record.
        destruct Hdisk as [-> | [kept ->]]; done.
  - assert (e0 = KeyboardInterrupt) as -> by (by destruct e0).
    split.
    + intros [= <-]. right. exists response, transcript.
      rewrite Hresp. split; [done|]. split; [done|]. split; [done|]. by left.
    + intros [[=]|(response' & transcript' & [= <-] & _ & Hanon' & Hcase)].
      rewrite Hresp in Hanon'.
      assert (transcript' = transcript) as -> by congruence.
      destruct Hcase as [[-> _]|(summary' & text' & Hsum' & _)]; [done|].
      rewrite Hsum in Hsum'. discriminate.
Qed.

(** C5 as stated fails: what the thread fetch raises leaves the handler. *)
Lemma handle_reaction_fetch_failure_propagates :
  (handle_reaction default_config slack_down_world bulb_event old_state).1
  = Raise (Raised "SlackApiError")
  ∧ ¬ returns_normally (handle_reaction default_config slack_down_world bulb_event old_state).
Proof.
  assert ((handle_reaction default_config slack_down_world bulb_event old_state).1
          = Raise (Raised "SlackApiError")) as H by (by vm_compute).
  split; [done|]. intros [a Ha]. congruence.
Qed.

(** The fetch fails: by the theorem the handler raises, and what it raises
    is what Slack raised. *)
Lemma handle_reaction_raises_iff_witness :
  (handle_reaction default_config slack_down_world bulb_event old_state).1
  = Raise (Raised "SlackApiError").
Proof.
  apply (proj1 (handle_reaction_raises_iff default_config slack_down_world
                  bulb_event old_state)).
  split; [done|]. do 3 right.
  exists "C024BE91L", "1355517523.000005". split; [apply bulb_triggers|].
  by left.
Defined.

(** ** The list display of the prompt *)

(** C6 fails on the code as it stands: Python rejects the list display of
    lines 60-67, for every transcript, because no comma separates its two
    dict displays; the module does not compile, and nothing is built or
    sent. *)
Theorem messages_as_written_rejected (text : string) :
  list_display (messages_as_written text) = None.
Proof. reflexivity. Qed.

(** With the comma, the display is the two-part prompt. *)
Lemma messages_with_comma_accepted (text : string) :
  list_display (messages_with_comma text) = Some (prompt_messages text).
Proof. reflexivity. Qed.

(** With the comma, the summarizer does what C6 says: the prompt is the
    fixed instruction followed by the transcript, verbatim after
    ["Conversation:\n"]; one request goes out, with the prompt,
    [max_tokens] 500 and the version tag; and the ["content"] of the
    response comes back. *)
Lemma summarize_with_comma cfg w text fields v s :
  bedrock w (MODEL_ID cfg) (summarize_request text)
    = Response (Bytes (Some (JsonObject fields))) →
  fields !! "content" = Some v →
  summarize_with_bedrock cfg w text s
  = (Ok v,
     with_effects s
       [InvokeModel (MODEL_ID cfg)
          {| messages := [ {| role := "user"; content := INSTRUCTION |};
                           {| role := "user";
                              content := "Conversation:" +:+ nl +:+ text |} ];
             max_tokens := 500;
             anthropic_version := "bedrock-2023-05-31" |}]).
Proof.
  intros Hreply Hv. rewrite (summarize_object _ _ _ _ fields) by done.
  by rewrite Hv.
Qed.

(** * Further properties *)

(** ** The anonymizer from any state *)

Lemma anonymize_step_ok st msg :
  ∃ st', anonymize_step st msg = Ok st'
    ∧ user_mapping st ⊆ user_mapping st'
    ∧ ∃ line, cleaned_messages st' = cleaned_messages st ++ [line].
Proof.
  unfold anonymize_step.
  destruct (user_mapping st !! author msg) as [label|] eqn:Hlook; simpl.
  - unfold getitem. rewrite Hlook. simpl. eauto.
  - unfold getitem. rewrite lookup_insert_eq. simpl.
    eexists. split; [done|]. simpl. split; [by apply insert_subseteq|eauto].
Qed.

Lemma anonymize_loop_grows thread : ∀ st,
  ∃ st', anonymize_loop st thread = Ok st'
    ∧ user_mapping st ⊆ user_mapping st'
    ∧ ∃ lines, cleaned_messages st' = cleaned_messages st ++ lines
               ∧ length lines = length thread.
Proof.
  induction thread as [|msg rest IH]; intros st; simpl.
  - exists st. split; [done|]. split; [done|]. exists []. by rewrite app_nil_r.
  - destruct (anonymize_step_ok st msg) as (st1 & -> & Hsub1 & line & Hline). simpl.
    destruct (IH st1) as (st2 & Hrun & Hsub2 & lines & Hlines & Hlen).
    exists st2. split; [done|]. split; [by etrans|].
    exists (line :: lines). rewrite Hlines, Hline, <- app_assoc. simpl.
    by rewrite Hlen.
Qed.


(** X1. From whatever mapping, counter and lines the loop starts, it ends
    without raising: the lookup of line 49 finds its key, present before or
    just inserted. It adds one line per message and keeps the lines it
    found. *)
Theorem anonymize_loop_never_raises (st : anon_state) (thread : list message) :
  ∃ st' lines, anonymize_loop st thread = Ok st'
    ∧ cleaned_messages st' = cleaned_messages st ++ lines
    ∧ length lines = length thread.
Proof.
  destruct (anonymize_loop_grows thread st) as (st' & Hrun & _ & lines & Hlines & Hlen).
  eauto.
Qed.


(** ** The transcript does not tell the author identifiers *)

Lemma author_rename f msg : author (rename_author f msg) = f (author msg).
Proof. unfold rename_author, author at 1. by rewrite lookup_insert_eq. Qed.

Lemma clean_text_rename f msg : clean_text (rename_author f msg) = clean_text msg.
Proof. unfold rename_author, clean_text. by rewrite lookup_insert_ne. Qed.

Lemma anonymize_step_renamed f `{!Inj (=) (=) f} st1 st2 msg :
  renamed f st1 st2 →
  ∃ st1' st2', anonymize_step st1 msg = Ok st1'
    ∧ anonymize_step st2 (rename_author f msg) = Ok st2'
    ∧ renamed f st1' st2'.
Proof.
  intros (Hmap & Hcnt & Hlines).
  unfold anonymize_step. rewrite author_rename, clean_text_rename, Hmap.
  destruct (user_mapping st1 !! author msg) as [label|] eqn:Hlook; simpl.
  - unfold getitem. rewrite Hmap, Hlook. simpl.
    eexists _, _. split; [done|]. split; [done|].
    split; [done|]. split; [done|]. simpl. by rewrite Hlines.
  - unfold getitem. rewrite !lookup_insert_eq. simpl.
    eexists _, _. split; [done|]. split; [done|]. rewrite Hcnt.
    split; [|split; [done|simpl; by rewrite Hlines]].
    intros a. simpl. destruct (decide (author msg = a)) as [->|Hne].
    + by rewrite !lookup_insert_eq.
    + rewrite !lookup_insert_ne; [apply Hmap|done|]. intros Heq. by apply Hne, (inj f).
Qed.

Lemma anonymize_loop_renamed f `{!Inj (=) (=) f} thread : ∀ st1 st2,
  renamed f st1 st2 →
  ∃ st1' st2', anonymize_loop st1 thread = Ok st1'
    ∧ anonymize_loop st2 (rename_author f <$> thread) = Ok st2'
    ∧ renamed f st1' st2'.
Proof.
  induction thread as [|msg rest IH]; intros st1 st2 Hren; simpl.
  - by exists st1, st2.
  - destruct (anonymize_step_renamed f st1 st2 msg Hren)
      as (st1' & st2' & -> & -> & Hren'). simpl. by apply IH.
Qed.

(** X3. The transcript depends on who wrote which message only up to the
    names: replacing the author identifiers by others, different authors
    getting different ones, gives the same transcript. *)
Theorem anonymize_users_hides_ids (f : string → string) (thread : list message) :
  Inj (=) (=) f →
  anonymize_users (rename_author f <$> thread) = anonymize_users thread.
Proof.
  intros Hinj.
  destruct (anonymize_loop_renamed f thread anon_init anon_init)
    as (st1 & st2 & Hrun1 & Hrun2 & _ & _ & Hlines); [done|].
  unfold anonymize_users. rewrite Hrun1, Hrun2. simpl. by rewrite Hlines.
Qed.

(** Renaming [U1] to [XU1] and [U2] to [XU2] in the scenario. *)
Lemma anonymize_users_hides_ids_witness :
  anonymize_users (rename_author (String.append "X") <$> scenario)
  = anonymize_users scenario.
Proof. apply anonymize_users_hides_ids. apply String.app_inj. Defined.

(** ** Edge cases of the cleaning *)

Module CleanFacts.
Import Str Re StrFacts ReFacts.

Lemma lstrip_blank s : all is_space s = true → lstrip s = "".
Proof.
  induction s as [|c s IH]; [done|]. simpl.
  intros [Hc Hs]%andb_true_iff. rewrite Hc. by apply IH.
Qed.

Lemma rstrip_ends s c :
  is_space c = false → rstrip (s +:+ String c "") = s +:+ String c "".
Proof.
  intros Hc. induction s as [|a s IH].
  - rewrite append_nil_l. simpl. by rewrite Hc.
  - rewrite append_cons. simpl. rewrite IH. by destruct s.
Qed.

(** Where the matcher finds nothing, no mention starts. *)
Lemma no_match_no_mention s :
  match_here MENTION s = None → ∀ m rest, is_mention m → s ≠ m +:+ rest.
Proof.
  intros Hnone m rest Hm ->.
  assert (match_here MENTION (m +:+ rest) = Some (String.length m)); [|congruence].
  apply match_mention. eauto.
Qed.

(** A character that is not [<] starts no mention. *)
Lemma sub_keep_other c s :
  c ≠ "<"%char → sub MENTION "" (String c s) = String c (sub MENTION "" s).
Proof.
  intros Hc. apply sub_mention_keep, no_match_no_mention.
  unfold MENTION. rewrite match_here_one. cbn [accepts].
  by rewrite bool_decide_eq_false_2.
Qed.

(** A run of word characters and what closes it stay as they are. *)
Lemma sub_word_run w :
  all is_word w = true → sub MENTION "" (w +:+ ">") = w +:+ ">".
Proof.
  induction w as [|c w IH]; [done|]. simpl.
  intros [Hc Hw]%andb_true_iff. rewrite append_cons, sub_keep_other, IH; [done..|].
  intros ->. done.
Qed.

(** The text of a mention wrapped around another one. *)
Lemma strip_nested inner outer :
  strip ("<@U" +:+ ("<@U" +:+ inner +:+ ">") +:+ outer +:+ ">")
  = "<@U" +:+ ("<@U" +:+ inner +:+ ">") +:+ outer +:+ ">".
Proof.
  unfold strip.
  replace ("<@U" +:+ ("<@U" +:+ inner +:+ ">") +:+ outer +:+ ">")
    with (("<@U" +:+ ("<@U" +:+ inner +:+ ">") +:+ outer) +:+ String ">" "")
    by (by autorewrite with str).
  set (body := "<@U" +:+ ("<@U" +:+ inner +:+ ">") +:+ outer).
  assert (lstrip (body +:+ ">") = body +:+ ">") as -> by done.
  by apply rstrip_ends.
Qed.

Lemma sub_nested inner outer :
  inner ≠ "" → all is_word inner = true → all is_word outer = true →
  sub MENTION "" ("<@U" +:+ ("<@U" +:+ inner +:+ ">") +:+ outer +:+ ">")
  = "<@U" +:+ outer +:+ ">".
Proof.
  intros Hin Hinw Houtw. autorewrite with str.
  rewrite sub_mention_keep by (by apply no_match_no_mention).
  rewrite 2!sub_keep_other by done.
  replace (String "<" (String "@" (String "U" (inner +:+ String ">" (outer +:+ ">")))))
    with (("<@U" +:+ inner +:+ ">") +:+ (outer +:+ ">"))
    by (by autorewrite with str).
  rewrite sub_mention_match by (by exists inner).
  by rewrite sub_word_run.
Qed.

End CleanFacts.

(** X4. A message without text, or with nothing but whitespace, still gives
    a line: the label, the colon and one space, with nothing after it. *)
Theorem blank_text_line (msg : message) :
  Str.all Str.is_space (default "" (msg !! "text")) = true →
  clean_text msg = ""
  ∧ anonymize_users [msg] = Ok "User 1: ".
Proof.
  intros Hblank.
  assert (clean_text msg = "") as Hclean.
  { unfold clean_text, Str.strip. by rewrite CleanFacts.lstrip_blank. }
  split; [done|].
  unfold anonymize_users. simpl. unfold anonymize_step. simpl.
  rewrite lookup_empty. simpl. unfold getitem. rewrite lookup_insert_eq. simpl.
  by rewrite Hclean.
Qed.

Lemma blank_text_line_witness :
  clean_text {[ "user" := "U1"; "text" := "   " ]} = ""
  ∧ anonymize_users [ {[ "user" := "U1"; "text" := "   " ]} ] = Ok "User 1: ".
Proof. apply blank_text_line. by vm_compute. Defined.

(** X5. The removal is one pass: a mention wrapped around another one is
    put together by the removal of the inner one and stays in the cleaned
    text. *)
Theorem nested_mention_survives (msg : message) (inner outer : string) :
  msg !! "text" = Some ("<@U" +:+ ("<@U" +:+ inner +:+ ">") +:+ outer +:+ ">") →
  inner ≠ "" → Str.all Re.is_word inner = true →
  outer ≠ "" → Str.all Re.is_word outer = true →
  clean_text msg = "<@U" +:+ outer +:+ ">"
  ∧ is_mention (clean_text msg).
Proof.
  intros Htext Hin Hinw Hout Houtw.
  assert (clean_text msg = "<@U" +:+ outer +:+ ">") as Hclean.
  { unfold clean_text. rewrite Htext. simpl.
    rewrite CleanFacts.strip_nested. by apply CleanFacts.sub_nested. }
  split; [done|]. rewrite Hclean. by exists outer.
Qed.

Lemma nested_mention_survives_witness :
  clean_text (mk_message "U1" "<@U<@U2>1>") = "<@U1>"
  ∧ is_mention (clean_text (mk_message "U1" "<@U<@U2>1>")).
Proof.
  apply (nested_mention_survives (mk_message "U1" "<@U<@U2>1>") "2" "1");
    by vm_compute.
Defined.

(** ** Every run of the handler *)

(** Each run is one of the ways through the handler. *)
Lemma handle_reaction_run cfg w ev s :
  ∃ es fs, (handle_reaction cfg w ev s).2 = {| trace := trace s ++ es; files := fs |}
    ∧ handler_run cfg w ev (files s) es fs.
Proof.
  destruct (decide (reaction ev = Some (SPECIFIC_EMOJI cfg))) as [Hr|Hr]; last first.
  { exists [RECEIVED; IGNORING], (files s). split; [|by apply run_ignored].
    step. rewrite bool_decide_eq_true_2 by done. simpl. by rewrite <- app_assoc. }
  assert (∀ e, missing_key ev e →
            ∃ es fs, (handle_reaction cfg w ev s).2
                     = {| trace := trace s ++ es; files := fs |}
              ∧ handler_run cfg w ev (files s) es fs) as Hmissing.
  { intros e Hmiss. exists [RECEIVED], (files s).
    rewrite (handle_reaction_missing_key _ _ _ e) by done.
    split; [done|]. by eapply run_key_error. }
  destruct (item ev) as [it|] eqn:Hit;
    [|apply (Hmissing (KeyError "item")); by left].
  destruct (it !! "channel") as [channel|] eqn:Hch;
    [|apply (Hmissing (KeyError "channel")); right; exists it; eauto].
  destruct (it !! "ts") as [ts|] eqn:Hts;
    [|apply (Hmissing (KeyError "ts")); right; exists it;
      split; [done|]; right; eauto].
  assert (triggers cfg ev channel ts) as Htrig by (split; eauto).
  rewrite (handle_reaction_fetch _ _ _ channel ts) by done. cbv zeta.
  destruct (slack w channel ts 50) as [e|response] eqn:Hfetch.
  { eexists _, _. split; [done|]. by eapply run_fetch_failed. }
  destruct (default [] response) as [|msg rest] eqn:Hresp.
  { eexists _, _. split; [by rewrite with_effects_app|]. by eapply run_empty. }
  destruct (anonymize_users_total (msg :: rest)) as (transcript & Hanon).
  assert (thread_fetched cfg w ev channel ts transcript) as Hthread.
  { split; [done|]. exists response. by rewrite Hresp. }
  step. rewrite Hanon.
  destruct (summarize_cases cfg w transcript
              (with_effects s [RECEIVED; TRIGGERED; ConversationsReplies channel ts 50]))
    as [(summary & logs & -> & Hlogs)|(e & -> & _)].
  - unfold write_file. destruct (disk w _ _) as [e|e kept|]; simpl.
    + exists (upto_request cfg channel ts transcript ++ logs ++ [OpenForWrite OUTPUT_PATH]),
        (files s).
      split; [by rewrite <- !app_assoc|]. by apply run_not_opened.
    + exists (upto_request cfg channel ts transcript ++ logs ++ [OpenForWrite OUTPUT_PATH]),
        (<[OUTPUT_PATH := kept]> (files s)).
      split; [by rewrite <- !app_assoc|]. by apply run_not_written.
    + eexists (upto_request cfg channel ts transcript ++ logs ++ [_; _; _]), _.
      split; [by rewrite <- !app_assoc|]. by apply run_written.
  - exists (upto_request cfg channel ts transcript), (files s).
    split; [by rewrite with_effects_app|]. by apply run_interrupted.
Qed.

Lemma filter_logs p logs :
  (∀ lvl fmt, p (Logged lvl fmt) = false) → Forall is_log logs → List.filter p logs = [].
Proof.
  intros Hp. induction 1 as [|e logs (lvl & fmt & ->) _ IH]; [done|].
  simpl. by rewrite Hp.
Qed.

(** X6. Whatever the event and whatever the collaborators do, a run leaves
    every file other than the output file as it found it. *)
Theorem handle_reaction_other_files cfg w ev s (path : string) :
  path ≠ OUTPUT_PATH →
  files (handle_reaction cfg w ev s).2 !! path = files s !! path.
Proof.
  intros Hpath.
  destruct (handle_reaction_run cfg w ev s) as (es & fs & -> & Hrun). simpl.
  inversion Hrun; subst; try done; by rewrite lookup_insert_ne.
Qed.

Lemma handle_reaction_other_files_witness :
  files (handle_reaction default_config good_world bulb_event
           {| trace := []; files := {[ "notes.txt" := "keep me" ]} |}).2 !! "notes.txt"
  = files {| trace := []; files := {[ "notes.txt" := "keep me" ]} |} !! "notes.txt".
Proof. apply handle_reaction_other_files. discriminate. Defined.



(** X9. A run asks Slack for a thread exactly when the event has the target
    emoji and names a channel and a timestamp: then it asks once, for that
    thread with limit 50, and otherwise not at all. *)
Theorem handle_reaction_fetches_iff_triggered cfg w ev s :
  ∃ es, trace (handle_reaction cfg w ev s).2 = trace s ++ es
    ∧ length (List.filter is_fetch es) ≤ 1
    ∧ (∀ channel ts limit, ConversationsReplies channel ts limit ∈ es →
         limit = 50 ∧ triggers cfg ev channel ts)
    ∧ (∀ channel ts, triggers cfg ev channel ts →
         ConversationsReplies channel ts 50 ∈ es).
Proof.
  destruct (handle_reaction_run cfg w ev s) as (es & fs & -> & Hrun). simpl.
  exists es. split; [done|].
  assert (∀ channel ts channel' ts',
            triggers cfg ev channel ts → triggers cfg ev channel' ts' →
            ConversationsReplies channel ts 50
            = ConversationsReplies channel' ts' 50) as Hsame.
  { intros ???? [_ (it & Hit & Hch & Hts)] [_ (it' & Hit' & Hch' & Hts')].
    congruence. }
  assert (∀ e channel ts, missing_key ev e → triggers cfg ev channel ts → False)
    as Hnokey.
  { intros e channel ts Hmiss [_ (it & Hit & Hch & Hts)].
    destruct Hmiss as [[? _]|(it' & Hit' & [[? _]|(_ & ? & _)])]; congruence. }
  inversion Hrun as [Hr|e Hr Hmiss|channel ts e Htrig|channel ts response Htrig
                     |channel ts transcript [Htrig _]
                     |channel ts transcript logs [Htrig _] Hlogs
                     |channel ts transcript logs kept [Htrig _] Hlogs
                     |channel ts transcript logs summary [Htrig _] Hlogs]; subst;
    (split; [|split; [intros channel' ts' limit Hin; in_run; eauto
                     |intros channel' ts' Htrig']]);
    rewrite ?List.filter_app; simpl; rewrite ?length_app;
    rewrite ?(filter_logs is_fetch logs) by done; simpl; try lia;
    try (by destruct Htrig' as [? _]);
    try (by destruct (Hnokey e channel' ts'));
    rewrite (Hsame channel' ts' channel ts) by done; set_solver.
Qed.

(** ** Failures on the way *)

Lemma thread_fetched_run cfg w ev channel ts transcript s :
  thread_fetched cfg w ev channel ts transcript →
  handle_reaction cfg w ev s
  = let s1 := with_effects s [RECEIVED; TRIGGERED; ConversationsReplies channel ts 50] in
    match summarize_with_bedrock cfg w transcript s1 with
    | (Raise e, s2) => (Raise e, s2)
    | (Ok summary, s2) =>
        match write_file w OUTPUT_PATH (output_record transcript (py_str summary)) s2 with
        | (Raise e, s3) => (Raise e, s3)
        | (Ok _, s3) => (Ok tt, with_effects s3 [SAVED])
        end
    end.
Proof.
  intros [Htrig (response & Hfetch & Hne & Hanon)].
  destruct (default [] response) as [|msg rest] eqn:Hresp; [done|].
  by apply (handle_reaction_thread _ _ _ channel ts response msg rest).
Qed.

(** X10. What is no [Exception] is not caught: an interrupt during the
    inference call leaves the summarizer and the handler at once, with no
    error record in the log and no file opened. *)
Theorem interrupt_leaves_the_handler cfg w ev channel ts transcript e s :
  thread_fetched cfg w ev channel ts transcript →
  bedrock w (MODEL_ID cfg) (summarize_request transcript) = InvokeRaises e →
  is_Exception e = false →
  handle_reaction cfg w ev s
  = (Raise e,
     {| trace := trace s ++ [RECEIVED; TRIGGERED; ConversationsReplies channel ts 50;
                             InvokeModel (MODEL_ID cfg) (summarize_request transcript)];
        files := files s |}).
Proof.
  intros Hthread Hreply He.
  rewrite (thread_fetched_run _ _ _ channel ts transcript) by done. cbv zeta.
  rewrite (summarize_uncaught _ _ _ _ e) by eauto.
  by rewrite with_effects_app.
Qed.

Lemma scenario_fetched w :
  slack w "C024BE91L" "1355517523.000005" 50 = FetchReturns (Some scenario) →
  thread_fetched default_config w bulb_event
    "C024BE91L" "1355517523.000005" scenario_transcript.
Proof.
  intros Hfetch. split; [apply bulb_triggers|].
  exists (Some scenario). split; [done|]. split; [done|]. by vm_compute.
Qed.

Lemma interrupt_leaves_the_handler_witness :
  handle_reaction default_config interrupted_world bulb_event old_state
  = (Raise KeyboardInterrupt,
     {| trace := trace old_state
                 ++ [RECEIVED; TRIGGERED;
                     ConversationsReplies "C024BE91L" "1355517523.000005" 50;
                     InvokeModel (MODEL_ID default_config)
                       (summarize_request scenario_transcript)];
        files := files old_state |}).
Proof.
  apply interrupt_leaves_the_handler;
    [by apply scenario_fetched|reflexivity|reflexivity].
Defined.

(** X11. The summary is not kept anywhere but in the file: when the output
    file cannot be opened, the error leaves the handler after the inference
    request has been made, and the files are as they were. *)
Theorem open_failure_after_request cfg w ev channel ts transcript parsed e s :
  thread_fetched cfg w ev channel ts transcript →
  bedrock w (MODEL_ID cfg) (summarize_request transcript) = Response (Bytes parsed) →
  (∀ data, disk w OUTPUT_PATH data = OpenRaises e) →
  (handle_reaction cfg w ev s).1 = Raise e
  ∧ files (handle_reaction cfg w ev s).2 = files s
  ∧ InvokeModel (MODEL_ID cfg) (summarize_request transcript)
      ∈ trace (handle_reaction cfg w ev s).2
  ∧ last (trace (handle_reaction cfg w ev s).2) = Some (OpenForWrite OUTPUT_PATH).
Proof.
  intros Hthread Hreply Hdisk.
  rewrite (thread_fetched_run _ _ _ channel ts transcript) by done. cbv zeta.
  destruct (summarize_cases cfg w transcript
              (with_effects s [RECEIVED; TRIGGERED; ConversationsReplies channel ts 50]))
    as [(summary & logs & -> & _)|(e0 & _ & _ & [Hr|Hr])]; [|congruence..].
  unfold write_file. rewrite Hdisk. simpl.
  split; [done|]. split; [done|].
  split; [unfold the_request; set_solver|by rewrite last_snoc].
Qed.

Lemma open_failure_after_request_witness :
  (handle_reaction default_config readonly_world bulb_event old_state).1
  = Raise (Raised "PermissionError")
  ∧ files (handle_reaction default_config readonly_world bulb_event old_state).2
    = files old_state
  ∧ InvokeModel (MODEL_ID default_config) (summarize_request scenario_transcript)
      ∈ trace (handle_reaction default_config readonly_world bulb_event old_state).2
  ∧ last (trace (handle_reaction default_config readonly_world bulb_event old_state).2)
    = Some (OpenForWrite OUTPUT_PATH).
Proof.
  eapply open_failure_after_request;
    [by apply scenario_fetched|reflexivity|reflexivity].
Defined.

(** X12. An event with the target emoji that lacks ["item"], or whose item
    lacks ["channel"] or ["ts"], raises [KeyError] for the first key that
    is missing, after one log record and before Slack is asked. *)
Theorem handle_reaction_key_error cfg w ev s :
  reaction ev = Some (SPECIFIC_EMOJI cfg) →
  (item ev = None →
   handle_reaction cfg w ev s = (Raise (KeyError "item"), with_effects s [RECEIVED]))
  ∧ (∀ it, item ev = Some it → it !! "channel" = None →
     handle_reaction cfg w ev s = (Raise (KeyError "channel"), with_effects s [RECEIVED]))
  ∧ (∀ it, item ev = Some it → is_Some (it !! "channel") → it !! "ts" = None →
     handle_reaction cfg w ev s = (Raise (KeyError "ts"), with_effects s [RECEIVED])).
Proof.
  intros Hr. repeat split.
  - intros Hit. apply handle_reaction_missing_key; [done|]. by left.
  - intros it Hit Hch. apply handle_reaction_missing_key; [done|].
    right. exists it. eauto.
  - intros it Hit Hch Hts. apply handle_reaction_missing_key; [done|].
    right. exists it. split; [done|]. right. eauto.
Qed.

Lemma handle_reaction_key_error_witness :
  handle_reaction default_config good_world itemless_event old_state
  = (Raise (KeyError "item"), with_effects old_state [RECEIVED]).
Proof.
  by apply (proj1 (handle_reaction_key_error default_config good_world
                     itemless_event old_state eq_refl)).
Defined.

(** The endpoint answers as the Messages API does, with a list of blocks
    under ["content"]. *)
Lemma summarize_with_comma_witness :
  summarize_with_bedrock default_config
    (a_world (FetchReturns (Some scenario))
       (Response (Bytes (Some (JsonObject
          {[ "content" := PRepr "[{'type': 'text', 'text': 'A revert fixed it.'}]" ]}))))
       WriteDone)
    scenario_transcript old_state
  = (Ok (PRepr "[{'type': 'text', 'text': 'A revert fixed it.'}]"),
     with_effects old_state
       [InvokeModel (MODEL_ID default_config)
          {| messages := [ {| role := "user"; content := INSTRUCTION |};
                           {| role := "user";
                              content := "Conversation:" +:+ nl +:+ scenario_transcript |} ];
             max_tokens := 500;
             anthropic_version := "bedrock-2023-05-31" |}]).
Proof.
  eapply summarize_with_comma; [reflexivity|by vm_compute].
Defined.

(** ** Configuration *)

(** X14. The handler under the configuration read from the environment:
    its requests go to the model named by [AWS_MODEL_ID], or to
    [anthropic.claude-v2] when the variable is not set, and it asks Slack
    for a thread only on a reaction named by [SPECIFIC_EMOJI], or [bulb]
    when that variable is not set. A variable set to the empty string
    counts as set. *)
Theorem configured_from_environment (environ : gmap string string) w ev s :
  ∃ es, trace (handle_reaction (load_config environ) w ev s).2 = trace s ++ es
    ∧ (∀ modelId request, InvokeModel modelId request ∈ es →
         modelId = default "anthropic.claude-v2" (environ !! "AWS_MODEL_ID"))
    ∧ (∀ channel ts limit, ConversationsReplies channel ts limit ∈ es →
         reaction ev = Some (default "bulb" (environ !! "SPECIFIC_EMOJI"))).
Proof.
  destruct (handle_reaction_run (load_config environ) w ev s) as (es & fs & -> & Hrun).
  simpl. exists es. split; [done|].
  inversion Hrun as [Hr|e Hr Hmiss|channel ts e [Hr _]|channel ts response [Hr _]
                     |channel ts transcript [[Hr _] _]
                     |channel ts transcript logs [[Hr _] _] Hlogs
                     |channel ts transcript logs kept [[Hr _] _] Hlogs
                     |channel ts transcript logs summary [[Hr _] _] Hlogs]; subst;
    (split; [intros modelId request Hin|intros channel' ts' limit Hin]);
    in_run; done.
Qed.
